(** * KEGGutils.KEGGapi: cache-aware fetch layer and request validation

    A shallow embedding of [KEGGutils/KEGGapi.py] and the properties of its
    specification.

    Conventions of the embedding.
    - A Python [str] is a [string]; a character stands for the code point
      of the same number, so the embedding covers text whose code points
      are below 256.  Bytes ([response.raw], image files) are strings too.
    - [None]-able arguments are [option]s, Python lists are [list]s.
    - Effects are explicit: a computation reads an environment (the remote
      server and the decoding libraries), threads a [world] (the cache
      directory and the log of the I/O performed so far) and either returns
      a value or raises a Python exception.

    What the embedding takes for granted.
    - The cache directory holds plain files, addressed by their path as
      it is written: "." and ".." segments and doubled slashes are not
      resolved.  No operation fails for lack of rights or of space.
    - The module creates no directory but [download_dir].  A directory
      below it exists when it holds a cached file, at any depth; an empty
      one is not represented.  Opening a file for writing fails with
      [FileNotFoundError] when its directory is missing.  The other ways
      for it to fail (a name that the file system refuses, a directory of
      that name, a file where a directory is needed) are left out of the
      embedding; a statement that has a download stored under a name of
      the caller's choice assumes [writable], which rules them out, or
      that the file is in the cache already.
    - A response, once [requests.get] has returned it, delivers its whole
      body.
    - Text files are written as given and read with universal newlines, as
      on a POSIX system; encodings are left out.
    - [assert] statements are executed.
    - An exception carries the value it is raised for; the wording of the
      messages of [KEGGKeyError] is left out.
    - Displaying a decoded raster ([plt.imshow]) is logged and returns. *)

From Stdlib Require Import Ascii NArith.
From stdpp Require Import base option list strings gmap.

(** ** Characters and the three [str] methods the module uses *)

Definition TAB : ascii := "009"%char.
Definition LF : ascii := "010"%char.
Definition CR : ascii := "013"%char.

Definition chr (c : ascii) : string := String c "".

(** Line boundaries of [str.splitlines] below code point 256. *)
Definition is_linebreak (c : ascii) : bool :=
  match N_of_ascii c with
  | 10 | 11 | 12 | 13 | 28 | 29 | 30 | 133 => true
  | _ => false
  end%N.

(** Whitespace of [str.strip] (the characters with [str.isspace]) below
    code point 256. *)
Definition is_space (c : ascii) : bool :=
  match N_of_ascii c with
  | 9 | 10 | 11 | 12 | 13 | 28 | 29 | 30 | 31 | 32 | 133 | 160 => true
  | _ => false
  end%N.

Definition is_empty (s : string) : bool :=
  match s with "" => true | _ => false end.

(** [splitlines_from line s]: the scan of [str.splitlines], [line] being the
    part of the current line read so far.  A line ends at a line boundary,
    carriage return followed by line feed counts as one boundary, and no
    empty last line is produced after a final boundary. *)
Fixpoint splitlines_from (line s : string) : list string :=
  match s with
  | "" => if is_empty line then [] else [line]
  | String c rest =>
      if is_linebreak c then
        line ::
        match rest with
        | String c' rest' =>
            if Ascii.eqb c CR && Ascii.eqb c' LF
            then splitlines_from "" rest'
            else splitlines_from "" rest
        | "" => []
        end
      else splitlines_from (line +:+ chr c) rest
  end.

Definition splitlines (s : string) : list string := splitlines_from "" s.

Fixpoint lstrip (s : string) : string :=
  match s with
  | "" => ""
  | String c rest => if is_space c then lstrip rest else s
  end.

Fixpoint rstrip (s : string) : string :=
  match s with
  | "" => ""
  | String c rest =>
      let rest' := rstrip rest in
      if is_space c && is_empty rest' then "" else String c rest'
  end.

(** [str.strip()] without argument. *)
Definition strip (s : string) : string := rstrip (lstrip s).

(** [split_from sep field s]: the scan of [str.split(sep)] for a separator of
    one character, [field] being the part of the current field read so far. *)
Fixpoint split_from (sep : ascii) (field s : string) : list string :=
  match s with
  | "" => [field]
  | String c rest =>
      if Ascii.eqb c sep
      then field :: split_from sep "" rest
      else split_from sep (field +:+ chr c) rest
  end.

Definition split_on (sep : ascii) (s : string) : list string :=
  split_from sep "" s.

(** [sep.join(parts)]. *)
Fixpoint str_join (sep : string) (parts : list string) : string :=
  match parts with
  | [] => ""
  | [p] => p
  | p :: rest => p +:+ sep +:+ str_join sep rest
  end.

(** [s.startswith(prefix)]. *)
Fixpoint startswith (prefix s : string) : bool :=
  match prefix, s with
  | "", _ => true
  | String p prefix', String c s' => Ascii.eqb p c && startswith prefix' s'
  | String _ _, "" => false
  end.

Fixpoint has_slash (s : string) : bool :=
  match s with
  | "" => false
  | String c rest => Ascii.eqb c "/" || has_slash rest
  end.

(** The directory part of a path: the path up to its last slash, the
    slash included, and nothing when the path holds no slash. *)
Fixpoint directory_of (path : string) : string :=
  match path with
  | "" => ""
  | String c rest =>
      if Ascii.eqb c "/" || has_slash rest
      then String c (directory_of rest)
      else ""
  end.
Arguments directory_of : simpl never.

(** ** Exceptions and results *)

Inductive exn : Type :=
  | KEGGOnlineError (url : string)
  | KEGGKeyError (key : string)
  | KEGGInvalidFileContent (filename text : string)
  | AssertionError (msg : string)
  | UnboundLocalError (var : string)
  | ValueError
  | FileNotFoundError (path : string)
  | ConnectionError (url : string)
  | RequestException (cls url : string)
  | JSONDecodeError
  | ImageDecodeError (path : string)
  | TypeError.

(** [UnboundLocalError] is the subclass of [NameError] that Python raises
    when a local variable is read before any assignment to it. *)
Definition is_NameError (e : exn) : bool :=
  match e with UnboundLocalError _ => true | _ => false end.

Definition is_KEGGKeyError (e : exn) : bool :=
  match e with KEGGKeyError _ => true | _ => false end.

Inductive result (A : Type) : Type :=
  | Ok (a : A)
  | Raise (e : exn).
Arguments Ok {A} a.
Arguments Raise {A} e.

(** ** [process_request_text] *)

(** What [process_request_text] returns: the items alone, or the items and
    the descriptions. *)
Inductive listing : Type :=
  | Items (itemlist : list string)
  | ItemsDescr (itemlist descriptionlist : list string).

(** The [for] loop of lines 141-144; the two-name unpacking raises
    [ValueError] unless the split gives exactly two fields. *)
Fixpoint request_lines (lines : list string)
    (itemlist descriptionlist : list string)
    : result (list string * list string) :=
  match lines with
  | [] => Ok (itemlist, descriptionlist)
  | line :: lines' =>
      match split_on TAB (strip line) with
      | [entry; description] =>
          request_lines lines' (itemlist ++ [entry])
            (descriptionlist ++ [description])
      | _ => Raise ValueError
      end
  end.

Definition process_request_text (fulltext : string) (want_descr : bool)
    : result listing :=
  match request_lines (splitlines fulltext) [] [] with
  | Raise e => Raise e
  | Ok (itemlist, descriptionlist) =>
      if want_descr then Ok (ItemsDescr itemlist descriptionlist)
      else Ok (Items itemlist)
  end.


(** ** The environment: the remote server and the decoding libraries *)

(** A [requests] response: [ok] is the status test of line 121, [body] the
    payload ([.text], and the bytes behind [.raw]). *)
Record response : Type := Response { ok : bool; body : string }.

#[warnings="-register-all"]
Inductive json_value : Type :=
  | JNull
  | JBool (b : bool)
  | JNumber (n : Z)
  | JString (s : string)
  | JArray (items : list json_value)
  | JObject (members : list (string * json_value)).

(** A decoded raster, as [matplotlib.image.imread] returns it. *)
Definition ndarray : Type := list (list N).

(** Why [requests.get] gives no response: the connection failed
    ([ConnectionError]), or [requests] raised another of its exceptions,
    given by the name of its class: "MissingSchema", "InvalidSchema" or
    "InvalidURL" for a url that is turned down before anything is sent,
    "TooManyRedirects", and so on. *)
Inductive request_failure : Type :=
  | ConnectionFailed
  | OtherFailure (cls : string).

Definition request_exn (failure : request_failure) (url : string) : exn :=
  match failure with
  | ConnectionFailed => ConnectionError url
  | OtherFailure cls => RequestException cls url
  end.

(** What the module takes from outside itself.  [http_get n url] answers the
    request for [url] issued after [n] earlier requests ([None]: no response,
    [requests.get] raises, and [http_error n url] says what); the server may
    answer the same url differently over time.  [json_loads], [json_dumps]
    are the [json] codec and [imread_decode] is the image decoder applied to
    the bytes of a file ([None]: the decoder raises).  [absent_name] belongs
    to [KEGGhelpers.push_backslash], see there. *)
Record env : Type := Env {
  http_get : nat -> string -> option response;
  http_error : nat -> string -> request_failure;
  json_loads : string -> option json_value;
  json_dumps : json_value -> string;
  imread_decode : string -> option ndarray;
  absent_name : option string
}.

(** ** The world: cache directory and I/O log *)

Inductive event : Type :=
  | Request (url : string)
  | Stat (path : string)
  | Mkdir (directory : string)
  | Write (path content : string)
  | Read (path : string)
  | Rename (src dst : string)
  | Print (line : string)
  | Imshow.

Definition download_dir : string := "./kegg_downloads/".

(** [cache] is [None] while the directory [download_dir] does not exist and
    otherwise maps the path of each file in it to its content.  [log] lists
    the I/O calls issued so far, oldest first. *)
Record world : Type := World {
  cache : option (gmap string string);
  log : list event
}.

(** With [download_dir] in place and holding [files], the path [d], which
    ends with a slash, names a directory: [download_dir] itself, or a
    directory that holds one of the files. *)
Definition directory (files : gmap string string) (d : string) : bool :=
  bool_decide (d = download_dir) ||
  existsb (λ entry, startswith d entry.1) (map_to_list files).

(** The urls requested so far, oldest first. *)
Fixpoint requests_of (l : list event) : list string :=
  match l with
  | [] => []
  | Request url :: l' => url :: requests_of l'
  | _ :: l' => requests_of l'
  end.

Definition file_at (w : world) (path : string) : option string :=
  match cache w with
  | None => None
  | Some files => files !! path
  end.

(** ** Computations *)

Definition M (A : Type) : Type := env -> world -> result A * world.

Definition ret {A} (a : A) : M A := fun _ w => (Ok a, w).

Definition raise {A} (e : exn) : M A := fun _ w => (Raise e, w).

Definition bind {A B} (m : M A) (k : A -> M B) : M B :=
  fun E w =>
    match m E w with
    | (Ok a, w') => k a E w'
    | (Raise e, w') => (Raise e, w')
    end.

Notation "'let*' x ':=' m 'in' k" := (bind m (fun x => k))
  (at level 10, x pattern, m at level 100, k at level 200).
Notation "m ';;' k" := (bind m (fun _ => k))
  (at level 100, k at level 200, right associativity).

Definition lift {A} (r : result A) : M A := fun _ w => (r, w).

(** [try: m / except: pass] with a bare [except]: every exception is
    caught; what [m] did to the world before raising stays done. *)
Definition try_except {A} (m : M A) : M (option A) :=
  fun E w =>
    match m E w with
    | (Ok a, w') => (Ok (Some a), w')
    | (Raise _, w') => (Ok None, w')
    end.

(** Reading a local variable that an earlier branch may have left unset. *)
Definition local {A} (name : string) (v : option A) : M A :=
  match v with
  | Some a => ret a
  | None => raise (UnboundLocalError name)
  end.

Definition emit (e : event) : M unit :=
  fun _ w => (Ok tt, World (cache w) (log w ++ [e])).

Definition ask {A} (f : env -> A) : M A := fun E w => (Ok (f E), w).

(** *** Primitive I/O *)

Definition print (line : string) : M unit := emit (Print line).

(** [requests.get]. *)
Definition requests_get (url : string) : M response :=
  fun E w =>
    let n := length (requests_of (log w)) in
    let w' := World (cache w) (log w ++ [Request url]) in
    match http_get E n url with
    | Some r => (Ok r, w')
    | None => (Raise (request_exn (http_error E n url) url), w')
    end.

(** [os.path.isfile]. *)
Definition isfile (path : string) : M bool :=
  fun _ w =>
    (Ok (bool_decide (is_Some (file_at w path))),
     World (cache w) (log w ++ [Stat path])).

(** [os.mkdir] under [try / except FileExistsError: pass]. *)
Definition mkdir (directory : string) : M unit :=
  fun _ w =>
    (Ok tt,
     World (Some (default ∅ (cache w))) (log w ++ [Mkdir directory])).

(** [open(path, mode)] for writing, followed by the write: the file is
    created or replaced; opening fails when the directory of the file is
    missing. *)
Definition write_file (path content : string) : M unit :=
  fun _ w =>
    let l := log w ++ [Write path content] in
    match cache w with
    | None => (Raise (FileNotFoundError path), World None l)
    | Some files =>
        if directory files (directory_of path)
        then (Ok tt, World (Some (<[path := content]> files)) l)
        else (Raise (FileNotFoundError path), World (Some files) l)
    end.

(** [open(path, "rb").read()]-like access to the bytes of a file. *)
Definition read_bytes (path : string) : M string :=
  fun _ w =>
    let w' := World (cache w) (log w ++ [Read path]) in
    match file_at w path with
    | None => (Raise (FileNotFoundError path), w')
    | Some content => (Ok content, w')
    end.

(** Text mode reads with universal newlines: carriage return, alone or
    followed by line feed, is handed to the caller as one line feed. *)
Fixpoint universal_newlines (s : string) : string :=
  match s with
  | "" => ""
  | String c rest =>
      if Ascii.eqb c CR then
        String LF
          match rest with
          | String c' rest' =>
              if Ascii.eqb c' LF then universal_newlines rest'
              else universal_newlines rest
          | "" => ""
          end
      else String c (universal_newlines rest)
  end.

(** [open(path, "r").read()]. *)
Definition read_text (path : string) : M string :=
  let* content := read_bytes path in
  ret (universal_newlines content).

(** [os.rename]: fails when the source is missing and when the directory
    of the destination is.  The exception names the source first. *)
Definition rename (src dst : string) : M unit :=
  fun _ w =>
    let l := log w ++ [Rename src dst] in
    match cache w with
    | None => (Raise (FileNotFoundError src), World None l)
    | Some files =>
        match files !! src with
        | None => (Raise (FileNotFoundError src), World (Some files) l)
        | Some content =>
            if directory files (directory_of dst)
            then
              (Ok tt, World (Some (<[dst := content]> (delete src files))) l)
            else (Raise (FileNotFoundError src), World (Some files) l)
        end
    end.

(** [assert cond, msg]. *)
Definition py_assert (cond : bool) (msg : string) : M unit :=
  if cond then ret tt else raise (AssertionError msg).

(** ** KEGGapi.py *)

Definition db_categories : list string :=
  [ "pathway"; "brite"; "module"; "ko"; "genome"; "vg"; "ag"; "compound";
    "glycan"; "reaction"; "rclass"; "enzyme"; "network"; "variant";
    "disease"; "drug"; "dgroup"; "environ"; "atc"; "jtc"; "ndc"; "yj";
    "pubmed"; "hsa" ].

(** [x in l] on a list of strings. *)
Definition str_in (x : string) (l : list string) : bool :=
  bool_decide (x ∈ l).

(** [x == y] on strings. *)
Definition str_eq (x y : string) : bool := bool_decide (x = y).

(** *** Interface messages *)

Definition msg_start_download (filename url : string) (verbose : bool)
    : M unit :=
  if verbose
  then print ("> Downloading " +:+ filename +:+ " from KEGG at " +:+ url)
  else ret tt.

Definition msg_end_download (filename : string) (verbose : bool) : M unit :=
  if verbose then print ("succesfully downloaded " +:+ filename)
  else ret tt.

Definition msg_file_already_exists (filename directory : string)
    (verbose : bool) : M unit :=
  if verbose then
    print ("> File " +:+ filename +:+ " already present in " +:+ directory);;
    print "reading from cached file..."
  else ret tt.

(** *** File management *)

Definition get_fname_path (filename : string) : string :=
  download_dir +:+ filename.

Definition file_exists (filename : string) : M bool :=
  isfile (get_fname_path filename).

(** *** Downloads *)

Definition request_image (url fpath : string) : M response :=
  let* response := requests_get url in
  write_file fpath (body response);;
  ret response.

Definition get_online_request (url : string) : M response :=
  let* request := requests_get url in
  if negb (ok request) then raise (KEGGOnlineError url)
  else ret request.

Definition download_textfile (url filename : string)
    (force_download verbose : bool) : M string :=
  let filepath := download_dir +:+ filename in
  let* present := file_exists filename in
  let* text :=
    if negb present || force_download then
      msg_start_download filename url verbose;;
      let* request := get_online_request url in
      let text := body request in
      mkdir download_dir;;
      write_file filepath text;;
      msg_end_download filename verbose;;
      ret text
    else
      msg_file_already_exists filename download_dir verbose;;
      read_text filepath
  in
  if str_eq text (chr LF)
  then raise (KEGGInvalidFileContent filename text)
  else ret text.

(** [request.json()] and [json.load]: decoding fails on text that is not
    JSON. *)
Definition json_decode (s : string) : M json_value :=
  let* loads := ask json_loads in
  match loads s with
  | Some j => ret j
  | None => raise JSONDecodeError
  end.

(** The branch that downloads binds [json_file], the other one [data];
    line 227 returns [data]. *)
Definition download_json (url filename : string)
    (force_download verbose : bool) : M json_value :=
  let filepath := download_dir +:+ filename in
  let* present := file_exists filename in
  let* data :=
    if negb present || force_download then
      msg_start_download filename url verbose;;
      let* request := get_online_request url in
      let* json_file := json_decode (body request) in
      mkdir download_dir;;
      let* dumps := ask json_dumps in
      write_file filepath (dumps json_file);;
      msg_end_download filename verbose;;
      ret None
    else
      let* content := read_text filepath in
      let* data := json_decode content in
      ret (Some data)
  in
  local "data" data.

(** The slice [h[i:i+n]]: shorter when [h] is. *)
Fixpoint slice (i n : nat) (h : string) : string :=
  match h with
  | "" => ""
  | String c rest =>
      match i, n with
      | S i', _ => slice i' n rest
      | 0, S n' => String c (slice 0 n' rest)
      | 0, 0 => ""
      end
  end.

Definition png_signature : string :=
  String "137" (String "P" (String "N" (String "G"
    (String CR (String LF (String "026" (String LF "")))))))%char.

(** The tests of [imghdr] on the head of a file, in their order: JPEG
    first, then PNG, then GIF.  The tests that follow (TIFF, ..., EXR) give
    a name other than "png" and "gif", or nothing; line 264 treats all of
    those alike, and they are [None] here. *)
Definition imghdr_tests (h : string) : option string :=
  if str_in (slice 6 4 h) ["JFIF"; "Exif"] then Some "jpeg"
  else if startswith png_signature h then Some "png"
  else if str_in (slice 0 6 h) ["GIF87a"; "GIF89a"] then Some "gif"
  else None.

(** [imghdr.what(path)]. *)
Definition imghdr_what (path : string) : M (option string) :=
  let* content := read_bytes path in
  ret (imghdr_tests (slice 0 32 content)).

(** [mpimg.imread(path)]. *)
Definition imread (path : string) : M ndarray :=
  let* content := read_bytes path in
  let* decode := ask imread_decode in
  match decode content with
  | Some a => ret a
  | None => raise (ImageDecodeError path)
  end.

(** What [download_pic] returns: [response.raw] after a download, the
    decoded raster after a cache hit. *)
Inductive picture : Type :=
  | RawStream (r : response)
  | Raster (a : ndarray).

(** [all(not file_exists(f) for f in names)]: stops at the first file found. *)
Fixpoint all_absent (names : list string) : M bool :=
  match names with
  | [] => ret true
  | name :: names' =>
      let* present := file_exists name in
      if negb present then all_absent names' else ret false
  end.

(** The loop of lines 269-273; [img] is the local variable it may bind. *)
Fixpoint read_variants (filename : string) (formats : list string)
    (img : option picture) : M (option picture) :=
  match formats with
  | [] => ret img
  | imgformat :: formats' =>
      let* read :=
        try_except (imread (get_fname_path filename +:+ "." +:+ imgformat)) in
      read_variants filename formats'
        match read with
        | Some a => Some (Raster a)
        | None => img
        end
  end.

Definition format_msg : string :=
  "Image format is wrong, something funny is happening in decoding probably".

Definition download_pic (url filename : string)
    (force_download verbose : bool) : M picture :=
  let possible_filenames := [filename +:+ ".gif"; filename +:+ ".png"] in
  let* none_cached := all_absent possible_filenames in
  let* img :=
    if none_cached || force_download then
      msg_start_download filename url verbose;;
      let tmp_path := get_fname_path "tmp_img" in
      let* img := request_image url tmp_path in
      let* img_format := imghdr_what tmp_path in
      match img_format with
      | Some fmt =>
          py_assert (str_in fmt ["gif"; "png"]) format_msg;;
          rename tmp_path (get_fname_path filename +:+ "." +:+ fmt);;
          ret (Some (RawStream img))
      | None => raise (AssertionError format_msg)
      end
    else read_variants filename ["gif"; "png"] None
  in
  local "img" img.

(** *** KEGG API commands *)

(** Modelled from the spec: [push_backslash] is defined in [KEGGhelpers],
    which is not among the sources.  The specification (4.5) says that the
    url is the base path followed by "slash-separated, present-only optional
    segments; absent arguments contribute no path segment", and that the
    same arguments build the cache filename.  So a present argument gives
    itself as name and itself behind a slash as url segment, and an absent
    one gives the empty url segment.  Which name an absent argument gives is
    not said; it is left to the environment ([absent_name], where [None] is
    Python's [None]), so that nothing proved below depends on it. *)
Definition push_backslash (stuff : option string)
    : M (option string * string) :=
  match stuff with
  | Some s => ret (Some s, "/" +:+ s)
  | None => let* name := ask absent_name in ret (name, "")
  end.

(** A value used as operand of [+] between strings: [None] raises. *)
Definition as_str (v : option string) : M string :=
  match v with
  | Some s => ret s
  | None => raise TypeError
  end.

(** [v == s] and [v in l] for a value that is a string or [None]. *)
Definition opt_eq (v : option string) (s : string) : bool :=
  match v with Some x => str_eq x s | None => false end.

Definition opt_in (v : option string) (l : list string) : bool :=
  match v with Some x => str_in x l | None => false end.

Definition is_not_None (v : option string) : bool :=
  match v with Some _ => true | None => false end.

(** The loop of lines 502-504. *)
Fixpoint organism_lines (lines : list string) (org_codes : list string)
    : result (list string) :=
  match lines with
  | [] => Ok org_codes
  | line :: lines' =>
      match split_on TAB (strip line) with
      | [T_identifier; kegg_code; description; hier] =>
          organism_lines lines' (org_codes ++ [kegg_code])
      | _ => Raise ValueError
      end
  end.

Definition org_url : string := "http://rest.kegg.jp/list/organism".
Definition org_filename : string := "organism_code_list".

Definition get_organism_codes : M (list string) :=
  let* organism_fulltext :=
    download_textfile org_url org_filename false false in
  lift (organism_lines (splitlines organism_fulltext) []).

(** Lines 320-328, 374-381 and 438-444: parse, and check the lengths when
    the descriptions are wanted. *)
Definition parse_listing (fulltext : string) (want_descriptions : bool)
    (msg : string) : M listing :=
  let* parsed := lift (process_request_text fulltext want_descriptions) in
  match parsed with
  | Items itemlist => ret (Items itemlist)
  | ItemsDescr itemlist descriptionlist =>
      py_assert (bool_decide (length itemlist = length descriptionlist)) msg;;
      ret (ItemsDescr itemlist descriptionlist)
  end.

Definition keggapi_list (database : string) (option : option string)
    (want_descriptions force_download : bool) : M listing :=
  let* org_codes := get_organism_codes in
  if negb (str_in database db_categories)
  then raise (KEGGKeyError database)
  else if opt_eq option "xl" && negb (str_eq database "brite")
  then raise (KEGGKeyError database)
  else if opt_in option org_codes && negb (str_eq database "pathway")
          && negb (str_eq database "module")
  then raise (KEGGKeyError database)
  else
    let* (option, optionurl) := push_backslash option in
    let url := "http://rest.kegg.jp/list/" +:+ database +:+ optionurl in
    let* option := as_str option in
    let filename := database +:+ "_" +:+ option +:+ "_list" in
    let* list_fulltext :=
      download_textfile url filename force_download true in
    parse_listing list_fulltext want_descriptions
      "different length, funny innit".

Definition find_options : list string := ["formula"; "exact_mass"; "mol_weight"].

Definition lengths_msg : string :=
  "different item and description lengths, something's not working".

Definition keggapi_find (database query : string) (option : option string)
    (want_descriptions verbose force_download : bool) : M listing :=
  let options := find_options in
  if negb (str_in database db_categories)
  then raise (KEGGKeyError database)
  else if (str_eq database "compound" || str_eq database "drug")
          && is_not_None option && negb (opt_in option options)
  then raise (KEGGKeyError database)
  else
    let* (query, queryurl) := push_backslash (Some query) in
    let* (option, optionurl) := push_backslash option in
    let url :=
      "http://rest.kegg.jp/find/" +:+ database +:+ queryurl +:+ optionurl in
    let* query := as_str query in
    let* option := as_str option in
    let filename := database +:+ "_" +:+ query +:+ "_" +:+ option in
    let* fulltext := download_textfile url filename force_download verbose in
    parse_listing fulltext want_descriptions lengths_msg.

Definition get_options : list string :=
  ["aaseq"; "ntseq"; "mol"; "kcf"; "image"; "conf"; "kgml"; "json"].

(** What [keggapi_get] returns, by branch. *)
Inductive got : Type :=
  | GotText (text : string)
  | GotJson (json_data : json_value)
  | GotImage (img : picture)
  | GotListing (l : listing).

(** [plt.imshow(img)]: a decoded raster is displayed; [response.raw],
    which [download_pic] returns after a download, is no image data and
    makes [imshow] raise [TypeError]. *)
Definition imshow (img : picture) : M unit :=
  match img with
  | Raster _ => emit Imshow
  | RawStream _ => raise TypeError
  end.

(** Lines 438-444 read the local variable [text], which only the branch of
    line 429 binds, and that branch returns at line 431. *)
Definition keggapi_get (dbentry : string) (option : option string)
    (want_descriptions verbose force_download : bool) : M got :=
  let options := get_options in
  if is_not_None option && negb (opt_in option options)
  then raise (KEGGKeyError (default "" option))
  else
    let* (option, optionurl) := push_backslash option in
    let url := "http://rest.kegg.jp/get/" +:+ dbentry +:+ optionurl in
    let option :=
      if is_not_None option then option else Some "description" in
    let* option := as_str option in
    let filename := dbentry +:+ "_" +:+ option in
    if str_eq option "description" then
      let* infos := download_textfile url filename force_download false in
      let infos :=
        if negb verbose
        then str_join (chr LF) (take 3 (drop 1 (splitlines infos)))
        else infos in
      print ("Infos on " +:+ dbentry +:+ " from KEGG:" +:+ chr LF);;
      print infos;;
      ret (GotText infos)
    else if str_eq option "json" then
      let* json_data := download_json url filename false verbose in
      ret (GotJson json_data)
    else if str_in option ["mol"; "kcf"; "conf"; "aaseq"; "ntseq"] then
      let* text := download_textfile url filename force_download verbose in
      print text;;
      ret (GotText text)
    else if str_eq option "image" then
      let* img := download_pic url filename false true in
      imshow img;;
      ret (GotImage img)
    else
      let* text := local "text" (@None string) in
      let* l := parse_listing text want_descriptions lengths_msg in
      ret (GotListing l).

Definition keggapi_link (source target : string)
    (verbose force_download : bool) : M (list string * list string) :=
  if negb (str_in target db_categories)
  then raise (KEGGKeyError target)
  else
    let url := "http://rest.kegg.jp/link/" +:+ target +:+ "/" +:+ source in
    let filename := target +:+ "_" +:+ source +:+ "_link" in
    let* text := download_textfile url filename force_download true in
    let* parsed := lift (process_request_text text true) in
    match parsed with
    | ItemsDescr link1 link2 => ret (link1, link2)
    | Items _ => raise ValueError
    end.

(** *** Derived functions *)

(** Lines 509-547 (marked deprecated in the source). *)
Definition kegg_url (target_db source_db : string) : result string :=
  if negb (str_in target_db db_categories)
  then Raise (KEGGKeyError target_db)
  else if negb (str_in source_db db_categories)
  then Raise (KEGGKeyError source_db)
  else if str_eq target_db source_db
  then Raise (KEGGKeyError source_db)
  else Ok ("http://rest.kegg.jp/link/" +:+ target_db +:+ "/" +:+ source_db).

(** Lines 550-565; the function returns nothing. *)
Definition get_infos (item : string) (verbose : bool) : M unit :=
  let url := "http://rest.kegg.jp/get/" +:+ item in
  let filename := item +:+ "_description" in
  let* infos := download_textfile url filename false false in
  let infos :=
    if negb verbose
    then str_join (chr LF) (take 3 (drop 1 (splitlines infos)))
    else infos in
  print ("Infos on " +:+ item +:+ " from KEGG:" +:+ chr LF);;
  print infos.

(** ** Notions used in the statements *)

(** *** Listings *)

Fixpoint no_tab (s : string) : bool :=
  match s with
  | "" => true
  | String c rest => negb (Ascii.eqb c TAB) && no_tab rest
  end.

Fixpoint no_break (s : string) : bool :=
  match s with
  | "" => true
  | String c rest => negb (is_linebreak c) && no_break rest
  end.

(** [s] is not empty and does not begin with whitespace. *)
Definition head_ok (s : string) : bool :=
  match s with
  | "" => false
  | String c _ => negb (is_space c)
  end.

(** [s] is not empty and does not end with whitespace. *)
Fixpoint last_ok (s : string) : bool :=
  match s with
  | "" => false
  | String c rest => if is_empty rest then negb (is_space c) else last_ok rest
  end.

(** A well-formed line has an item and a description, neither of them
    holding a tab or a line boundary, and has no whitespace at its ends. *)
Definition well_formed (p : string * string) : bool :=
  head_ok p.1 && no_tab p.1 && no_break p.1 &&
  last_ok p.2 && no_tab p.2 && no_break p.2.

Definition line_of (p : string * string) : string :=
  p.1 +:+ chr TAB +:+ p.2.

(** The lines separated by line feeds, as in "a\tx\nb\ty\nc\tz". *)
Definition text_of (pairs : list (string * string)) : string :=
  str_join (chr LF) (line_of <$> pairs).

(** The lines each ended by a line feed, as the server sends them. *)
Fixpoint text_lines (pairs : list (string * string)) : string :=
  match pairs with
  | [] => ""
  | p :: pairs' => line_of p +:+ String LF (text_lines pairs')
  end.

Definition sample_text : string :=
  "a" +:+ chr TAB +:+ "x" +:+ chr LF +:+
  "b" +:+ chr TAB +:+ "y" +:+ chr LF +:+
  "c" +:+ chr TAB +:+ "z".

(** *** What a call logs *)

Definition events_fetch (url filename content : string) (verbose : bool)
    : list event :=
  [Stat (download_dir +:+ filename)] ++
  (if verbose
   then [Print ("> Downloading " +:+ filename +:+ " from KEGG at " +:+ url)]
   else []) ++
  [Request url; Mkdir download_dir; Write (download_dir +:+ filename) content]
  ++ (if verbose then [Print ("succesfully downloaded " +:+ filename)] else []).

Definition events_failed (url filename : string) (verbose : bool)
    : list event :=
  [Stat (download_dir +:+ filename)] ++
  (if verbose
   then [Print ("> Downloading " +:+ filename +:+ " from KEGG at " +:+ url)]
   else []) ++
  [Request url].

Definition events_cached (filename : string) (verbose : bool) : list event :=
  [Stat (download_dir +:+ filename)] ++
  (if verbose
   then [Print ("> File " +:+ filename +:+ " already present in "
                +:+ download_dir);
         Print "reading from cached file..."]
   else []) ++
  [Read (download_dir +:+ filename)].

(** *** Text files *)

(** The text that [download_textfile] gets hold of: the body of an [ok]
    response when it downloads, what the cached file reads as otherwise. *)
Inductive text_obtained (E : env) (w : world) (url filename : string)
    (force_download : bool) : string → Prop :=
  | obtained_fetched r :
      file_at w (download_dir +:+ filename) = None ∨ force_download = true →
      http_get E (length (requests_of (log w))) url = Some r →
      ok r = true →
      text_obtained E w url filename force_download (body r)
  | obtained_cached content :
      file_at w (download_dir +:+ filename) = Some content →
      force_download = false →
      text_obtained E w url filename force_download
        (universal_newlines content).

(** The directory of the cache file [filename] exists once
    [download_dir] does.  This is so for every name without a slash, and
    for every name whose file is in the cache. *)
Definition has_directory (w : world) (filename : string) : bool :=
  directory (default ∅ (cache w)) (directory_of (download_dir +:+ filename)).

Fixpoint no_nul (s : string) : bool :=
  match s with
  | "" => true
  | String c rest => negb (Ascii.eqb c "000") && no_nul rest
  end.

(** The number of bytes of [s] in UTF-8, for code points below 256. *)
Fixpoint utf8_length (s : string) : nat :=
  match s with
  | "" => 0
  | String c rest =>
      (if (N_of_ascii c <? 128)%N then 1 else 2) + utf8_length rest
  end.

(** [filename] is spelled as the name of a file below [download_dir]:
    every part between slashes is a name (not empty, not "." and not
    ".."), no character is NUL, and the path is no longer than a file name
    may be. *)
Definition proper (filename : string) : bool :=
  forallb (λ part, negb (str_in part [""; "."; ".."]))
    (split_on "/" filename)
  && no_nul filename
  && (utf8_length (download_dir +:+ filename) <=? 255).

(** Nothing keeps the module from writing the cache file [filename] once
    [download_dir] is there: the name is proper, its directory exists and
    the path names no directory. *)
Definition writable (w : world) (filename : string) : bool :=
  proper filename && has_directory w filename
  && negb (directory (default ∅ (cache w))
             (download_dir +:+ filename +:+ "/")).


(** *** Vocabularies *)

(** The arguments of [find] outside the vocabulary. *)
Definition find_rejects (database : string) (option : option string) : bool :=
  negb (str_in database db_categories) ||
  (str_in database ["compound"; "drug"] && is_not_None option &&
   negb (opt_in option find_options)).

(** The arguments of [list] outside the vocabulary, given the organism
    codes. *)
Definition list_rejects (org_codes : list string) (database : string)
    (option : option string) : bool :=
  negb (str_in database db_categories) ||
  (opt_eq option "xl" && negb (str_eq database "brite")) ||
  (opt_in option org_codes && negb (str_in database ["pathway"; "module"])).

(** [m] raises nothing but exceptions in [P]. *)
Definition raises_only {A} (P : exn → Prop) (m : M A) : Prop :=
  ∀ E w e, (m E w).1 = Raise e → P e.

Definition not_key_error (e : exn) : Prop := is_KEGGKeyError e = false.

(** *** Images *)

Definition tmp_path : string := get_fname_path "tmp_img".

(** The path of the cached variant of [filename] in format [fmt]. *)
Definition variant_path (filename fmt : string) : string :=
  download_dir +:+ filename +:+ "." +:+ fmt.

(** What [imghdr.what] finds in downloaded bytes. *)
Definition sniff (content : string) : option string :=
  imghdr_tests (slice 0 32 content).

(** What [mpimg.imread] gets from [path], if anything. *)
Definition readable (E : env) (w : world) (path : string) : option ndarray :=
  file_at w path ≫= imread_decode E.

(** [download_pic] can store what it downloads for [filename] under either
    variant. *)
Definition storable (w : world) (filename : string) : bool :=
  writable w (filename +:+ ".gif") && writable w (filename +:+ ".png").

Definition events_stat (w : world) (filename : string) : list event :=
  Stat (variant_path filename "gif") ::
  if bool_decide (is_Some (file_at w (variant_path filename "gif")))
  then [] else [Stat (variant_path filename "png")].

Definition events_image (w : world) (url filename content : string)
    (verbose : bool) : list event :=
  events_stat w filename ++
  (if verbose
   then [Print ("> Downloading " +:+ filename +:+ " from KEGG at " +:+ url)]
   else []) ++
  [Request url; Write tmp_path content; Read tmp_path].

(** The outcome of the loop over the cached variants: the last variant
    that could be read, and an unbound [img] when there is none. *)
Definition cached_result (E : env) (w : world) (filename : string)
    : result picture :=
  match readable E w (variant_path filename "png"),
        readable E w (variant_path filename "gif") with
  | Some a, _ => Ok (Raster a)
  | None, Some a => Ok (Raster a)
  | None, None => Raise (UnboundLocalError "img")
  end.

(** ** Sample environments and worlds *)

Definition sample_loads (s : string) : option json_value :=
  if str_eq s "{}" then Some (JObject [])
  else if str_eq s "[]" then Some (JArray [])
  else None.

Definition sample_dumps (j : json_value) : string :=
  match j with
  | JObject [] => "{}"
  | JArray [] => "[]"
  | _ => "null"
  end.

(** A server that answers the listed urls, always in the same way, and
    no other one. *)
Definition server (pages : list (string * response))
    (decode : string → option ndarray) : env :=
  Env (λ _ url, (list_to_map pages : gmap string response) !! url)
    (λ _ _, ConnectionFailed) sample_loads sample_dumps decode None.

Definition organism_page : string :=
  "T01001" +:+ chr TAB +:+ "hsa" +:+ chr TAB +:+ "Homo sapiens (human)"
  +:+ chr TAB +:+ "Eukaryotes;Animals;Mammals" +:+ chr LF.

Definition short_page : string := "a" +:+ chr TAB +:+ "x" +:+ chr LF.

Definition find_url : string := "http://rest.kegg.jp/find/pathway/q/formula".
Definition xl_url : string := "http://rest.kegg.jp/list/brite/xl".
Definition json_url : string := "http://rest.kegg.jp/get/hsa:10458/json".
Definition image_url : string := "http://rest.kegg.jp/get/hsa05130/image".
Definition empty_url : string := "http://rest.kegg.jp/list/vg".

(** Bytes that begin like a PNG file and stop there. *)
Definition png_head : string := png_signature +:+ "IHDR".

Definition decode_none (content : string) : option ndarray := None.

Definition decode_png (content : string) : option ndarray :=
  if startswith png_signature content then Some [[0%N]] else None.

Definition kegg (decode : string → option ndarray) : env :=
  server
    [ (org_url, Response true organism_page);
      (find_url, Response true short_page);
      (xl_url, Response true short_page);
      (json_url, Response true "[]");
      (image_url, Response true png_head);
      (empty_url, Response true (chr LF)) ]
    decode.

(** A server that answers every request with an error status. *)
Definition kegg_down : env :=
  Env (λ _ _, Some (Response false "")) (λ _ _, ConnectionFailed)
    sample_loads sample_dumps decode_none None.

(** No cache directory yet. *)
Definition no_cache : world := World None [].

(** An empty cache directory. *)
Definition empty_cache : world := World (Some ∅) [].

Definition json_path : string := download_dir +:+ "hsa:10458_json".

(** A cache that holds the JSON document of an earlier [get]. *)
Definition json_cached : world := World (Some {[ json_path := "{}" ]}) [].

(** A cache that holds a file named like a GIF variant whose content is no
    image. *)
Definition gif_cached : world :=
  World (Some {[ variant_path "hsa05130_image" "gif" := "not an image" ]}) [].

(** ** Further notions used in the statements *)

(** *** Lines and fields *)

Fixpoint count_tab (s : string) : nat :=
  match s with
  | "" => 0
  | String c rest => (if Ascii.eqb c TAB then 1 else 0) + count_tab rest
  end.

(** The fields of a line as the loops of lines 141-144 and 502-504 get
    them. *)
Definition fields (line : string) : list string := split_on TAB (strip line).

Definition field (i : nat) (line : string) : string :=
  default "" (fields line !! i).

Definition has_fields (n : nat) (line : string) : bool :=
  bool_decide (length (fields line) = n).

Fixpoint no_cr (s : string) : bool :=
  match s with
  | "" => true
  | String c rest => negb (Ascii.eqb c CR) && no_cr rest
  end.

(** The lines each ended by a line feed. *)
Fixpoint unlines (lines : list string) : string :=
  match lines with
  | [] => ""
  | line :: lines' => line +:+ String LF (unlines lines')
  end.

(** *** Commands *)

(** The exceptions that the listing commands let out; a
    [FileNotFoundError] among them is for a cache file whose name holds a
    slash. *)
Definition api_error (e : exn) : Prop :=
  match e with
  | KEGGKeyError _ | TypeError | ConnectionError _ | RequestException _ _
  | KEGGOnlineError _ | KEGGInvalidFileContent _ _ | ValueError => True
  | FileNotFoundError path =>
      ∃ filename,
        path = download_dir +:+ filename ∧ has_slash filename = true
  | _ => False
  end.

(** What the listing commands never raise: a failed assertion, a local
    variable read before it is bound. *)
Definition no_internal_error (e : exn) : Prop :=
  match e with
  | AssertionError _ | UnboundLocalError _ => False
  | _ => True
  end.

Definition link_url (source target : string) : string :=
  "http://rest.kegg.jp/link/" +:+ target +:+ "/" +:+ source.

Definition org_path : string := download_dir +:+ org_filename.

(** *** Images *)

Definition events_request (w : world) (url filename : string)
    (verbose : bool) : list event :=
  events_stat w filename ++
  (if verbose
   then [Print ("> Downloading " +:+ filename +:+ " from KEGG at " +:+ url)]
   else []) ++
  [Request url].

(** The outcome of the download in [download_pic] once the server has
    answered with [r] and the cache directory holds [files]. *)
Definition stored_result (w : world) (files : gmap string string)
    (url filename : string) (verbose : bool) (r : response)
    : result picture * world :=
  match sniff (body r) with
  | Some fmt =>
      if str_in fmt ["gif"; "png"] then
        if directory files (directory_of (download_dir +:+ filename)) then
          (Ok (RawStream r),
           World
             (Some (<[variant_path filename fmt := body r]>
                      (delete tmp_path (<[tmp_path := body r]> files))))
             (log w ++ events_image w url filename (body r) verbose ++
              [Rename tmp_path (variant_path filename fmt)]))
        else
          (Raise (FileNotFoundError tmp_path),
           World (Some (<[tmp_path := body r]> files))
             (log w ++ events_image w url filename (body r) verbose ++
              [Rename tmp_path (variant_path filename fmt)]))
      else
        (Raise (AssertionError format_msg),
         World (Some (<[tmp_path := body r]> files))
           (log w ++ events_image w url filename (body r) verbose))
  | None =>
      (Raise (AssertionError format_msg),
       World (Some (<[tmp_path := body r]> files))
         (log w ++ events_image w url filename (body r) verbose))
  end.

(** *** Further sample environments and worlds *)

Definition link_page : string :=
  "hsa:10458" +:+ chr TAB +:+ "path:hsa04520" +:+ chr LF +:+
  "hsa:10458" +:+ chr TAB +:+ "path:hsa04810" +:+ chr LF.

Definition entry_lines : list string :=
  [ "ENTRY       10458"; "NAME        BAIAP2"; "ORTHOLOGY   K05627";
    "ORGANISM    hsa"; "///" ].

(** Bytes that begin like a GIF file. *)
Definition gif_head : string := "GIF89a" +:+ "0000".

Definition decode_both (content : string) : option ndarray :=
  if startswith png_signature content then Some [[0%N]]
  else if startswith "GIF8" content then Some [[1%N]]
  else None.

Definition shared_url : string := "http://rest.kegg.jp/find/pathway/a_b/c".
Definition gif_url : string := "http://rest.kegg.jp/get/hsa04520/image".
Definition entry_url : string := "http://rest.kegg.jp/get/hsa:10458".

Definition kegg_more : env :=
  server
    [ (link_url "hsa" "pathway", Response true link_page);
      (shared_url, Response true short_page);
      (gif_url, Response true gif_head);
      (entry_url, Response true (unlines entry_lines)) ]
    decode_both.

(** A server that answers a link request whose source holds a slash. *)
Definition kegg_slash : env :=
  server [ (link_url "a/b" "pathway", Response true short_page) ]
    decode_none.

(** A cache that holds the PNG variant of an image. *)
Definition png_cached : world :=
  World (Some {[ variant_path "hsa04520_image" "png" := png_head ]}) [].

(** A cache that holds both variants of an image. *)
Definition both_cached : world :=
  World
    (Some (<[ variant_path "hsa04520_image" "gif" := gif_head ]>
             {[ variant_path "hsa04520_image" "png" := png_head ]}))
    [].

(** A cache that holds the organism list. *)
Definition organisms_cached : world :=
  World (Some {[ org_path := organism_page ]}) [].

(** * Properties *)

(** ** Strings *)

Section strings.
Implicit Types s t u line field : string.

Lemma append_nil_l t : "" +:+ t = t.
Proof. reflexivity. Qed.

Lemma append_cons c s t : String c s +:+ t = String c (s +:+ t).
Proof. reflexivity. Qed.

Lemma append_nil_r s : s +:+ "" = s.
Proof.
  induction s as [|c s IH]; [done |]. by rewrite append_cons, IH.
Qed.

Lemma append_assoc s t u : (s +:+ t) +:+ u = s +:+ t +:+ u.
Proof.
  induction s as [|c s IH]; [done |]. by rewrite !append_cons, IH.
Qed.

Lemma append_snoc s c t : (s +:+ chr c) +:+ t = s +:+ String c t.
Proof. by rewrite append_assoc. Qed.

Lemma no_break_app s t : no_break (s +:+ t) = no_break s && no_break t.
Proof.
  induction s as [|c s IH]; [done |].
  rewrite append_cons. simpl. by rewrite IH, andb_assoc.
Qed.

Lemma splitlines_from_app line s t :
  no_break s = true →
  splitlines_from line (s +:+ t) = splitlines_from (line +:+ s) t.
Proof.
  revert line. induction s as [|c s IH]; intros line.
  - by rewrite append_nil_l, append_nil_r.
  - rewrite append_cons. simpl.
    intros [Hc Hs]%andb_true_iff. apply negb_true_iff in Hc.
    rewrite Hc, IH by done. by rewrite append_snoc.
Qed.

Lemma splitlines_from_end line s :
  no_break s = true → is_empty (line +:+ s) = false →
  splitlines_from line s = [line +:+ s].
Proof.
  intros Hs Hne. rewrite <- (append_nil_r s) at 1.
  rewrite splitlines_from_app by done. simpl. by rewrite Hne.
Qed.

(** A line feed ends the line before it, whatever follows. *)
Lemma splitlines_cons s t :
  no_break s = true →
  splitlines (s +:+ String LF t) = s :: splitlines t.
Proof.
  intros Hs. unfold splitlines. rewrite splitlines_from_app by done.
  rewrite append_nil_l. simpl. by destruct t.
Qed.

Lemma head_ok_nonempty s : head_ok s = true → is_empty s = false.
Proof. by destruct s. Qed.

Lemma last_ok_nonempty s : last_ok s = true → is_empty s = false.
Proof. by destruct s. Qed.

Lemma head_ok_app s t : head_ok s = true → head_ok (s +:+ t) = true.
Proof. by destruct s. Qed.

Lemma is_empty_app s t : is_empty t = false → is_empty (s +:+ t) = false.
Proof. by destruct s, t. Qed.

Lemma last_ok_app s t : last_ok t = true → last_ok (s +:+ t) = true.
Proof.
  intros Ht. induction s as [|c s IH]; [done |].
  rewrite append_cons. simpl.
  by rewrite is_empty_app by by apply last_ok_nonempty.
Qed.

Lemma lstrip_head_ok s : head_ok s = true → lstrip s = s.
Proof.
  destruct s as [|c s]; simpl; [done |]. by intros ->%negb_true_iff.
Qed.

Lemma rstrip_last_ok s : last_ok s = true → rstrip s = s.
Proof.
  induction s as [|c s IH]; simpl; [done |].
  destruct (is_empty s) eqn:Hs.
  - destruct s; [|done]. simpl. by intros ->%negb_true_iff.
  - intros H. rewrite IH by done. by rewrite Hs, andb_false_r.
Qed.

Lemma strip_id s : head_ok s = true → last_ok s = true → strip s = s.
Proof.
  intros Hh Hl. unfold strip. rewrite lstrip_head_ok by done.
  by apply rstrip_last_ok.
Qed.

Lemma split_from_app field s t :
  no_tab s = true →
  split_from TAB field (s +:+ t) = split_from TAB (field +:+ s) t.
Proof.
  revert field. induction s as [|c s IH]; intros field.
  - by rewrite append_nil_l, append_nil_r.
  - rewrite append_cons. simpl.
    intros [Hc Hs]%andb_true_iff. apply negb_true_iff in Hc.
    rewrite Hc, IH by done. by rewrite append_snoc.
Qed.

Lemma split_two s t :
  no_tab s = true → no_tab t = true →
  split_on TAB (s +:+ chr TAB +:+ t) = [s; t].
Proof.
  intros Hs Ht. unfold split_on. rewrite split_from_app by done.
  rewrite append_nil_l. unfold chr. rewrite append_cons, append_nil_l.
  simpl. f_equal. rewrite <- (append_nil_r t) at 1.
  by rewrite split_from_app by done.
Qed.

Lemma str_join_cons sep p q (parts : list string) :
  str_join sep (p :: q :: parts)
  = p +:+ sep +:+ str_join sep (q :: parts).
Proof. reflexivity. Qed.
End strings.

(** ** [process_request_text] *)

Lemma well_formed_line p :
  well_formed p = true →
  split_on TAB (strip (line_of p)) = [p.1; p.2] ∧
  no_break (line_of p) = true ∧ head_ok (line_of p) = true.
Proof.
  unfold well_formed, line_of. destruct p as [a b]; simpl.
  rewrite !andb_true_iff. intros [[[[[Ha1 Ha2] Ha3] Hb1] Hb2] Hb3].
  split_and!.
  - rewrite strip_id.
    + by apply split_two.
    + by apply head_ok_app.
    + apply last_ok_app. by apply (last_ok_app (chr TAB)).
  - by rewrite !no_break_app, Ha3, Hb3.
  - by apply head_ok_app.
Qed.

Lemma splitlines_text_of pairs :
  Forall (λ p, well_formed p = true) pairs →
  splitlines (text_of pairs) = line_of <$> pairs.
Proof.
  unfold text_of. induction 1 as [|p pairs Hp Hps IH]; [done |].
  destruct (well_formed_line p Hp) as (_ & Hb & Hh).
  destruct pairs as [|q pairs].
  - simpl. unfold splitlines. rewrite splitlines_from_end; [done | done |].
    rewrite append_nil_l. by apply head_ok_nonempty.
  - rewrite fmap_cons, (fmap_cons _ q), str_join_cons, <- fmap_cons.
    unfold chr at 1. rewrite append_cons, append_nil_l.
    by rewrite splitlines_cons, IH.
Qed.

Lemma splitlines_text_lines pairs :
  Forall (λ p, well_formed p = true) pairs →
  splitlines (text_lines pairs) = line_of <$> pairs.
Proof.
  induction 1 as [|p pairs Hp Hps IH]; [done |].
  destruct (well_formed_line p Hp) as (_ & Hb & _).
  simpl. by rewrite splitlines_cons, IH.
Qed.

Lemma request_lines_well_formed pairs itemlist descriptionlist :
  Forall (λ p, well_formed p = true) pairs →
  request_lines (line_of <$> pairs) itemlist descriptionlist
  = Ok (itemlist ++ pairs.*1, descriptionlist ++ pairs.*2).
Proof.
  intros H. revert itemlist descriptionlist.
  induction H as [|p pairs Hp Hps IH]; intros itemlist descriptionlist.
  - simpl. by rewrite !app_nil_r.
  - destruct (well_formed_line p Hp) as (Hsplit & _ & _).
    rewrite !fmap_cons. simpl. rewrite Hsplit, IH. by rewrite <- !app_assoc.
Qed.

(** C5.  On the text "a\tx\nb\ty\nc\tz", [process_request_text] returns the
    items a, b, c and the descriptions x, y, z when the descriptions are
    wanted and the items a, b, c alone otherwise; and on every text made of
    well-formed lines, separated or ended by line feeds, it returns the
    items and the descriptions of the lines in the order of the lines. *)
Theorem process_request_text_order :
  process_request_text sample_text true
    = Ok (ItemsDescr ["a"; "b"; "c"] ["x"; "y"; "z"]) ∧
  process_request_text sample_text false = Ok (Items ["a"; "b"; "c"]) ∧
  ∀ pairs text,
    Forall (λ p, well_formed p = true) pairs →
    text = text_of pairs ∨ text = text_lines pairs →
    process_request_text text true = Ok (ItemsDescr pairs.*1 pairs.*2) ∧
    process_request_text text false = Ok (Items pairs.*1).
Proof.
  split_and!; [by vm_compute | by vm_compute |].
  intros pairs text Hwf Htext. unfold process_request_text.
  assert (splitlines text = line_of <$> pairs) as ->.
  { destruct Htext as [-> | ->];
      [by apply splitlines_text_of | by apply splitlines_text_lines]. }
  by rewrite request_lines_well_formed.
Qed.

Lemma process_request_text_order_witness :
  Forall (λ p, well_formed p = true) [("K00001", "E1.1.1.1; alcohol"); ("K00002", "AKR1A1")] ∧
  process_request_text
    (text_lines [("K00001", "E1.1.1.1; alcohol"); ("K00002", "AKR1A1")]) true
  = Ok (ItemsDescr ["K00001"; "K00002"] ["E1.1.1.1; alcohol"; "AKR1A1"]).
Proof.
  assert (Forall (λ p, well_formed p = true)
            [("K00001", "E1.1.1.1; alcohol"); ("K00002", "AKR1A1")]) as Hwf.
  { repeat constructor. }
  split; [exact Hwf |].
  destruct process_request_text_order as (_ & _ & Hall).
  exact (proj1 (Hall _ _ Hwf (or_intror eq_refl))).
Defined.

(** ** Running computations *)

(** Closes a decidable goal about given values by evaluation. *)
Ltac decided :=
  match goal with
  | |- ?P => apply (bool_decide_unpack P); vm_compute; exact I
  end.

Ltac unfold_io :=
  unfold file_exists, get_fname_path, isfile, get_online_request,
    requests_get, mkdir, write_file, read_text, read_bytes, rename,
    msg_start_download, msg_end_download, msg_file_already_exists,
    print, emit, ask, local, lift, py_assert, bind, ret, raise in *.

Lemma bind_run {A B} (m : M A) (k : A → M B) E w :
  bind m k E w =
  match m E w with
  | (Ok a, w') => k a E w'
  | (Raise e, w') => (Raise e, w')
  end.
Proof. reflexivity. Qed.

Lemma requests_of_app l1 l2 :
  requests_of (l1 ++ l2) = requests_of l1 ++ requests_of l2.
Proof.
  induction l1 as [|[] l1 IH]; simpl; [done | by rewrite IH | done ..].
Qed.

Lemma str_eq_true x y : str_eq x y = true ↔ x = y.
Proof. unfold str_eq. by rewrite bool_decide_eq_true. Qed.

Lemma str_in_true x l : str_in x l = true ↔ x ∈ l.
Proof. unfold str_in. by rewrite bool_decide_eq_true. Qed.

Lemma str_in_false x l : str_in x l = false ↔ x ∉ l.
Proof. unfold str_in. by rewrite bool_decide_eq_false. Qed.

Lemma str_in_pair x a b :
  str_in x [a; b] = str_eq x a || str_eq x b.
Proof.
  unfold str_eq, str_in.
  destruct (bool_decide_reflect (x = a)) as [-> | Ha].
  { apply bool_decide_eq_true. by left. }
  destruct (bool_decide_reflect (x = b)) as [-> | Hb].
  { apply bool_decide_eq_true. right. by left. }
  apply bool_decide_eq_false.
  intros [? | [? | []%elem_of_nil]%elem_of_cons]%elem_of_cons; done.
Qed.

Section raises_only.
Context {A B : Type} (P : exn → Prop).

Lemma raises_only_ret (a : A) : raises_only P (ret a).
Proof. by intros E w e. Qed.

Lemma raises_only_raise e : P e → raises_only P (@raise A e).
Proof. intros He E w e' [= <-]. done. Qed.

Lemma raises_only_ask (f : env → A) : raises_only P (ask f).
Proof. by intros E w e. Qed.

Lemma raises_only_lift (r : result A) :
  (∀ e, r = Raise e → P e) → raises_only P (lift r).
Proof. intros Hr E w e. apply Hr. Qed.

Lemma raises_only_bind (m : M A) (k : A → M B) :
  raises_only P m → (∀ a, raises_only P (k a)) → raises_only P (bind m k).
Proof.
  intros Hm Hk E w e. rewrite bind_run.
  destruct (m E w) as [[a | e'] w'] eqn:Hrun.
  - apply Hk.
  - simpl. intros [= <-]. apply (Hm E w). by rewrite Hrun.
Qed.
End raises_only.

Lemma not_key_error_neq {A} (r : result A) :
  (∀ e, r = Raise e → not_key_error e) → ∀ key, r ≠ Raise (KEGGKeyError key).
Proof. intros H key Hr. by apply H in Hr. Qed.

(** ** Directories *)

Lemma startswith_refl s : startswith s s = true.
Proof. induction s as [|c s IH]; simpl; [done |]. by rewrite Ascii.eqb_refl. Qed.

Lemma startswith_app s t : startswith s (s +:+ t) = true.
Proof.
  induction s as [|c s IH]; [done |].
  rewrite append_cons. simpl. by rewrite Ascii.eqb_refl.
Qed.

Lemma startswith_trans s t u :
  startswith s t = true → startswith t u = true → startswith s u = true.
Proof.
  revert t u. induction s as [|c s IH]; intros [|d t] [|e u]; simpl; try done.
  intros [Hc Hs]%andb_true_iff [Hd Ht]%andb_true_iff.
  apply Ascii.eqb_eq in Hc as ->. rewrite Hd. simpl. by eapply IH.
Qed.

Lemma directory_of_cons c rest :
  directory_of (String c rest)
  = if Ascii.eqb c "/" || has_slash rest
    then String c (directory_of rest)
    else "".
Proof. reflexivity. Qed.

Lemma startswith_directory_of path :
  startswith (directory_of path) path = true.
Proof.
  induction path as [|c s IH]; [done |]. rewrite directory_of_cons.
  destruct (_ || _); [| done]. simpl. by rewrite Ascii.eqb_refl.
Qed.

Lemma has_slash_app s t : has_slash (s +:+ t) = has_slash s || has_slash t.
Proof.
  induction s as [|c s IH]; [done |].
  rewrite append_cons. simpl. by rewrite IH, orb_assoc.
Qed.

(** What follows the last slash does not count. *)
Lemma directory_of_app s t :
  has_slash t = false → directory_of (s +:+ t) = directory_of s.
Proof.
  intros Ht. induction s as [|c s IH].
  - rewrite append_nil_l. destruct t as [|c t]; [done |].
    rewrite directory_of_cons. simpl in Ht. by rewrite Ht.
  - rewrite append_cons, !directory_of_cons.
    by rewrite has_slash_app, Ht, orb_false_r, IH.
Qed.

Lemma directory_of_download_dir filename :
  has_slash filename = false →
  directory_of (download_dir +:+ filename) = download_dir.
Proof. intros H. by rewrite directory_of_app. Qed.

Lemma directory_true files d :
  directory files d = true ↔
  d = download_dir ∨ ∃ path content,
    files !! path = Some content ∧ startswith d path = true.
Proof.
  unfold directory.
  rewrite orb_true_iff, bool_decide_eq_true, existsb_exists. split.
  - intros [-> | ([path content] & Hin & Hpre)]; [by left |].
    right. exists path, content. split; [| done].
    by apply elem_of_map_to_list, list_elem_of_In.
  - intros [-> | (path & content & Hfile & Hpre)]; [by left |].
    right. exists (path, content). split; [| done].
    by apply list_elem_of_In, elem_of_map_to_list.
Qed.

(** A file in the cache has its directory. *)
Lemma directory_file files path content :
  files !! path = Some content → directory files (directory_of path) = true.
Proof.
  intros Hfile. apply directory_true. right. exists path, content.
  split; [done | apply startswith_directory_of].
Qed.

Opaque directory.

Lemma directory_insert files path content d :
  directory files d = true → directory (<[path := content]> files) d = true.
Proof.
  rewrite !directory_true. intros [-> | (p & c & Hfile & Hpre)]; [by left |].
  right. destruct (decide (p = path)) as [-> | Hne].
  - exists path, content. by rewrite lookup_insert_eq.
  - exists p, c. by rewrite lookup_insert_ne.
Qed.

Lemma has_directory_plain w filename :
  has_slash filename = false → has_directory w filename = true.
Proof.
  intros H. unfold has_directory. rewrite directory_of_download_dir by done.
  apply directory_true. by left.
Qed.

Lemma has_directory_cached w filename content :
  file_at w (download_dir +:+ filename) = Some content →
  has_directory w filename = true.
Proof.
  unfold file_at, has_directory. destruct (cache w) as [files|]; [| done].
  apply directory_file.
Qed.

Lemma writable_has_directory w filename :
  writable w filename = true → has_directory w filename = true.
Proof.
  unfold writable. by intros [[_ H]%andb_true_iff _]%andb_true_iff.
Qed.

Lemma not_has_directory_slash w filename :
  has_directory w filename = false → has_slash filename = true.
Proof.
  intros H. destruct (has_slash filename) eqn:Hs; [done |].
  by rewrite has_directory_plain in H.
Qed.

Lemma has_slash_directory_of path :
  has_slash (directory_of path) = has_slash path.
Proof.
  induction path as [|c s IH]; [done |]. rewrite directory_of_cons. simpl.
  destruct (Ascii.eqb c "/" || has_slash s) eqn:Hc; [| done].
  simpl. by rewrite IH.
Qed.

Lemma has_slash_startswith s t :
  startswith s t = true → has_slash s = true → has_slash t = true.
Proof.
  revert t. induction s as [|c s IH]; intros [|d t]; simpl; try done.
  intros [Hc Hs]%andb_true_iff. apply Ascii.eqb_eq in Hc as ->.
  intros [-> | H]%orb_true_iff; [done |].
  rewrite (IH t) by done. apply orb_true_r.
Qed.

Lemma startswith_app_inv s t u :
  startswith (s +:+ t) (s +:+ u) = startswith t u.
Proof.
  induction s as [|c s IH]; [done |].
  rewrite !append_cons. simpl. by rewrite Ascii.eqb_refl.
Qed.

(** Below a path that ends with a slash. *)
Lemma directory_of_below s t :
  directory_of ((s +:+ "/") +:+ t) = (s +:+ "/") +:+ directory_of t.
Proof.
  induction s as [|c s IH].
  - rewrite !append_nil_l. change ("/" +:+ t) with (String "/" t).
    by rewrite directory_of_cons.
  - rewrite !append_cons, directory_of_cons, IH.
    by rewrite !has_slash_app, orb_true_r, orb_true_r.
Qed.

Lemma directory_tmp_path files : directory files (directory_of tmp_path) = true.
Proof. apply directory_true. by left. Qed.

(** No directory but [download_dir] holds tmp_img. *)
Lemma directory_insert_tmp_path files content filename :
  directory (<[tmp_path := content]> files)
    (directory_of (download_dir +:+ filename))
  = directory files (directory_of (download_dir +:+ filename)).
Proof.
  apply eq_true_iff_eq. split; [| apply directory_insert].
  rewrite !directory_true. intros [-> | (p & c & Hfile & Hpre)]; [by left |].
  destruct (decide (p = tmp_path)) as [-> | Hne].
  - left. destruct (has_slash filename) eqn:Hs;
      [| by apply directory_of_download_dir].
    change download_dir with ("./kegg_downloads" +:+ "/") in Hpre.
    unfold tmp_path, get_fname_path in Hpre.
    change download_dir with ("./kegg_downloads" +:+ "/") in Hpre.
    rewrite directory_of_below, startswith_app_inv in Hpre.
    apply has_slash_startswith in Hpre; [done |].
    by rewrite has_slash_directory_of.
  - right. exists p, c. by rewrite lookup_insert_ne in Hfile.
Qed.

Lemma format_known fmt :
  str_in fmt ["gif"; "png"] = true → fmt = "gif" ∨ fmt = "png".
Proof.
  rewrite str_in_pair. by intros [?%str_eq_true | ?%str_eq_true]%orb_true_iff; [left | right].
Qed.

Lemma storable_has_directory w filename :
  storable w filename = true → has_directory w filename = true.
Proof.
  unfold storable. intros [H%writable_has_directory _]%andb_true_iff.
  unfold has_directory in *.
  by rewrite <- append_assoc, directory_of_app in H.
Qed.

Lemma directory_of_variant_path filename fmt :
  str_in fmt ["gif"; "png"] = true →
  directory_of (variant_path filename fmt)
  = directory_of (download_dir +:+ filename).
Proof.
  intros [-> | ->]%format_known; unfold variant_path;
    rewrite <- append_assoc; by apply directory_of_app.
Qed.

(** ** [download_textfile] *)

Lemma fresh_condition w path force :
  file_at w path = None ∨ force = true →
  negb (bool_decide (is_Some (file_at w path))) || force = true.
Proof.
  intros [H | ->]; [| by rewrite orb_true_r].
  rewrite H. by rewrite bool_decide_eq_false_2 by by intros [? [=]].
Qed.

Lemma fresh_or_cached w path force :
  (file_at w path = None ∨ force = true) ∨
  (∃ content, file_at w path = Some content ∧ force = false).
Proof. destruct (file_at w path), force; eauto. Qed.

(** The download succeeds: the body is stored, then checked. *)
Lemma download_textfile_fetch E w url filename force verbose r :
  file_at w (download_dir +:+ filename) = None ∨ force = true →
  http_get E (length (requests_of (log w))) url = Some r →
  ok r = true →
  has_directory w filename = true →
  download_textfile url filename force verbose E w
  = (if str_eq (body r) (chr LF)
     then Raise (KEGGInvalidFileContent filename (body r))
     else Ok (body r),
     World
       (Some (<[download_dir +:+ filename := body r]> (default ∅ (cache w))))
       (log w ++ events_fetch url filename (body r) verbose)).
Proof.
  intros Hfresh Hget Hok Hdir. unfold has_directory in Hdir.
  unfold download_textfile, events_fetch. unfold_io.
  rewrite fresh_condition by done.
  destruct verbose; simpl;
    rewrite ?requests_of_app; simpl; rewrite ?app_nil_r, Hget; simpl;
    rewrite Hok; simpl; rewrite Hdir; simpl;
    rewrite <- !app_assoc; simpl;
    by destruct (str_eq (body r) (chr LF)).
Qed.

(** The download arrives and the directory of the file is missing: the
    file cannot be opened. *)
Lemma download_textfile_no_directory E w url filename force verbose r :
  file_at w (download_dir +:+ filename) = None ∨ force = true →
  http_get E (length (requests_of (log w))) url = Some r →
  ok r = true →
  has_directory w filename = false →
  download_textfile url filename force verbose E w
  = (Raise (FileNotFoundError (download_dir +:+ filename)),
     World (Some (default ∅ (cache w)))
       (log w ++ events_failed url filename verbose ++
        [Mkdir download_dir; Write (download_dir +:+ filename) (body r)])).
Proof.
  intros Hfresh Hget Hok Hdir. unfold has_directory in Hdir.
  unfold download_textfile, events_failed. unfold_io.
  rewrite fresh_condition by done.
  destruct verbose; simpl;
    rewrite ?requests_of_app; simpl; rewrite ?app_nil_r, Hget; simpl;
    rewrite Hok; simpl; rewrite Hdir; simpl;
    by rewrite <- !app_assoc.
Qed.

Lemma download_textfile_no_response E w url filename force verbose :
  file_at w (download_dir +:+ filename) = None ∨ force = true →
  http_get E (length (requests_of (log w))) url = None →
  download_textfile url filename force verbose E w
  = (Raise (request_exn (http_error E (length (requests_of (log w))) url) url),
     World (cache w) (log w ++ events_failed url filename verbose)).
Proof.
  intros Hfresh Hget.
  unfold download_textfile, events_failed. unfold_io.
  rewrite fresh_condition by done.
  destruct verbose; simpl;
    rewrite ?requests_of_app; simpl; rewrite ?app_nil_r, Hget; simpl;
    by rewrite <- !app_assoc.
Qed.

Lemma download_textfile_not_ok E w url filename force verbose r :
  file_at w (download_dir +:+ filename) = None ∨ force = true →
  http_get E (length (requests_of (log w))) url = Some r →
  ok r = false →
  download_textfile url filename force verbose E w
  = (Raise (KEGGOnlineError url),
     World (cache w) (log w ++ events_failed url filename verbose)).
Proof.
  intros Hfresh Hget Hok.
  unfold download_textfile, events_failed. unfold_io.
  rewrite fresh_condition by done.
  destruct verbose; simpl;
    rewrite ?requests_of_app; simpl; rewrite ?app_nil_r, Hget; simpl;
    rewrite Hok; simpl; by rewrite <- !app_assoc.
Qed.

(** The file is there and the download is not forced: the file is read. *)
Lemma download_textfile_cached E w url filename verbose content :
  file_at w (download_dir +:+ filename) = Some content →
  download_textfile url filename false verbose E w
  = (if str_eq (universal_newlines content) (chr LF)
     then Raise (KEGGInvalidFileContent filename (universal_newlines content))
     else Ok (universal_newlines content),
     World (cache w) (log w ++ events_cached filename verbose)).
Proof.
  intros Hfile.
  unfold download_textfile, events_cached. unfold_io.
  rewrite Hfile. rewrite bool_decide_eq_true_2 by eauto. simpl.
  destruct verbose; simpl; unfold file_at in *; simpl; rewrite Hfile; simpl;
    rewrite <- !app_assoc; simpl;
    by destruct (str_eq (universal_newlines content) (chr LF)).
Qed.

(** Every way [download_textfile] can fail. *)
Lemma download_textfile_raises E w url filename force verbose e :
  (download_textfile url filename force verbose E w).1 = Raise e →
  e = request_exn (http_error E (length (requests_of (log w))) url) url ∨
  e = KEGGOnlineError url ∨
  e = FileNotFoundError (download_dir +:+ filename)
    ∧ has_directory w filename = false ∨
  e = KEGGInvalidFileContent filename (chr LF).
Proof.
  destruct (fresh_or_cached w (download_dir +:+ filename) force)
    as [Hfresh | (content & Hfile & ->)].
  - destruct (http_get E (length (requests_of (log w))) url) as [r|] eqn:Hget;
      [destruct (ok r) eqn:Hok;
       [destruct (has_directory w filename) eqn:Hdir |] |].
    + rewrite (download_textfile_fetch _ _ _ _ _ _ r) by done. simpl.
      destruct (str_eq _ _) eqn:Heq; [|done].
      apply str_eq_true in Heq as ->. intros [= <-]. auto.
    + rewrite (download_textfile_no_directory _ _ _ _ _ _ r) by done.
      intros [= <-]. auto.
    + rewrite (download_textfile_not_ok _ _ _ _ _ _ r) by done.
      intros [= <-]. auto.
    + rewrite download_textfile_no_response by done. intros [= <-]. auto.
  - rewrite (download_textfile_cached _ _ _ _ _ content) by done. simpl.
    destruct (str_eq _ _) eqn:Heq; [|done].
    apply str_eq_true in Heq as ->. intros [= <-]. auto.
Qed.

Lemma download_textfile_raises_only url filename force verbose :
  raises_only not_key_error (download_textfile url filename force verbose).
Proof.
  intros E w e H. apply download_textfile_raises in H.
  destruct H as [-> | [-> | [[-> _] | ->]]]; try done.
  by destruct (http_error _ _ _).
Qed.

(** Whatever happens, the call begins with the test for the cached file. *)
Lemma download_textfile_stats E w url filename force verbose :
  ∃ rest,
    log (download_textfile url filename force verbose E w).2
    = log w ++ Stat (download_dir +:+ filename) :: rest.
Proof.
  destruct (fresh_or_cached w (download_dir +:+ filename) force)
    as [Hfresh | (content & Hfile & ->)].
  - destruct (http_get E (length (requests_of (log w))) url) as [r|] eqn:Hget;
      [destruct (ok r) eqn:Hok;
       [destruct (has_directory w filename) eqn:Hdir |] |].
    + rewrite (download_textfile_fetch _ _ _ _ _ _ r) by done. simpl. eauto.
    + rewrite (download_textfile_no_directory _ _ _ _ _ _ r) by done.
      simpl. eauto.
    + rewrite (download_textfile_not_ok _ _ _ _ _ _ r) by done. simpl. eauto.
    + rewrite download_textfile_no_response by done. simpl. eauto.
  - rewrite (download_textfile_cached _ _ _ _ _ content) by done. simpl. eauto.
Qed.

(** With [force_download] set, the url is requested whatever the cache
    holds. *)
Lemma download_textfile_force_requests E w url filename verbose :
  requests_of (log (download_textfile url filename true verbose E w).2)
  = requests_of (log w) ++ [url].
Proof.
  assert (file_at w (download_dir +:+ filename) = None ∨ true = true)
    as Hfresh by by right.
  destruct (http_get E (length (requests_of (log w))) url) as [r|] eqn:Hget;
    [destruct (ok r) eqn:Hok; [destruct (has_directory w filename) eqn:Hdir |] |].
  - rewrite (download_textfile_fetch _ _ _ _ _ _ r) by done. simpl.
    rewrite requests_of_app. by destruct verbose.
  - rewrite (download_textfile_no_directory _ _ _ _ _ _ r) by done. simpl.
    rewrite requests_of_app. by destruct verbose.
  - rewrite (download_textfile_not_ok _ _ _ _ _ _ r) by done. simpl.
    rewrite requests_of_app. by destruct verbose.
  - rewrite download_textfile_no_response by done. simpl.
    rewrite requests_of_app. by destruct verbose.
Qed.



Lemma requests_of_events_cached l filename verbose :
  requests_of (l ++ events_cached filename verbose) = requests_of l.
Proof.
  rewrite requests_of_app. destruct verbose; simpl; by rewrite app_nil_r.
Qed.




(** ** Parsing raises no key error *)

Lemma request_lines_raises lines itemlist descriptionlist e :
  request_lines lines itemlist descriptionlist = Raise e → e = ValueError.
Proof.
  revert itemlist descriptionlist.
  induction lines as [|line lines IH]; intros itemlist descriptionlist;
    simpl; [done |].
  destruct (split_on TAB (strip line)) as [|? [|? [|? ?]]];
    try by intros [= <-].
  apply IH.
Qed.

Lemma process_request_text_raises fulltext want_descr e :
  process_request_text fulltext want_descr = Raise e → e = ValueError.
Proof.
  unfold process_request_text.
  destruct (request_lines _ _ _) as [[items descrs] | e'] eqn:Hlines.
  - by destruct want_descr.
  - intros [= <-]. by apply request_lines_raises in Hlines.
Qed.

Lemma parse_listing_raises_only fulltext want_descriptions msg :
  raises_only not_key_error (parse_listing fulltext want_descriptions msg).
Proof.
  unfold parse_listing. apply raises_only_bind.
  - apply raises_only_lift. by intros e ->%process_request_text_raises.
  - intros [items | items descrs]; [apply raises_only_ret |].
    apply raises_only_bind; [| intros; apply raises_only_ret].
    unfold py_assert. destruct (bool_decide _);
      [apply raises_only_ret | by apply raises_only_raise].
Qed.

Lemma push_backslash_raises_only stuff :
  raises_only not_key_error (push_backslash stuff).
Proof.
  destruct stuff; simpl; [apply raises_only_ret |].
  apply raises_only_bind;
    [apply raises_only_ask | intros; apply raises_only_ret].
Qed.

Lemma as_str_raises_only v : raises_only not_key_error (as_str v).
Proof.
  destruct v; [apply raises_only_ret | by apply raises_only_raise].
Qed.

(** ** [keggapi_get] *)

Lemma keggapi_get_rejects E w dbentry option wd verbose force :
  option ∉ get_options →
  keggapi_get dbentry (Some option) wd verbose force E w
  = (Raise (KEGGKeyError option), w).
Proof.
  intros H%str_in_false. unfold keggapi_get. simpl. by rewrite H.
Qed.

(** C8.  "kgml" is among the options that [keggapi_get] accepts, and for
    every entry the call with that option reads the unbound local variable
    [text]: it fails with [UnboundLocalError], a [NameError], having done
    no I/O. *)
Theorem keggapi_get_kgml E w dbentry want_descriptions verbose force :
  str_in "kgml" get_options = true ∧
  keggapi_get dbentry (Some "kgml") want_descriptions verbose force E w
  = (Raise (UnboundLocalError "text"), w) ∧
  is_NameError (UnboundLocalError "text") = true.
Proof. split_and!; [by vm_compute | reflexivity | done]. Qed.

(** C1, where the code departs from it.  The JSON document of hsa:10458 is
    in the cache and the server now has another one; [keggapi_get] with
    [force_download] set returns the cached document, requests nothing and
    leaves the cache file as it was: line 426 does not hand [force_download]
    to [download_json]. *)
Theorem keggapi_get_json_ignores_force_download :
  let out :=
    keggapi_get "hsa:10458" (Some "json") false false true
      (kegg decode_none) json_cached in
  http_get (kegg decode_none) 0 json_url = Some (Response true "[]") ∧
  out.1 = Ok (GotJson (JObject [])) ∧
  log out.2 = [Stat json_path; Read json_path] ∧
  requests_of (log out.2) = [] ∧
  file_at out.2 json_path = Some "{}".
Proof. by vm_compute. Qed.

(** The sibling branch of line 429 does hand it on: the same call for the
    MOL file requests the url although the file is cached. *)
Lemma keggapi_get_mol_obeys_force_download E w dbentry wd verbose :
  requests_of
    (log (keggapi_get dbentry (Some "mol") wd verbose true E w).2)
  = requests_of (log w) ++ ["http://rest.kegg.jp/get/" +:+ dbentry +:+ "/mol"].
Proof.
  unfold keggapi_get. simpl. do 2 (rewrite bind_run; simpl).
  rewrite bind_run.
  pose proof (download_textfile_force_requests E w
                ("http://rest.kegg.jp/get/" +:+ dbentry +:+ "/" +:+ "mol")
                (dbentry +:+ "_" +:+ "mol") verbose) as Hreq.
  destruct (download_textfile _ _ true verbose E w) as [[text | e] w1];
    simpl in *; [| done].
  unfold_io. simpl. rewrite requests_of_app. simpl. by rewrite app_nil_r.
Qed.

(** ** [keggapi_find] *)

Lemma keggapi_find_rejects E w database query option wd verbose force :
  find_rejects database option = true →
  keggapi_find database query option wd verbose force E w
  = (Raise (KEGGKeyError database), w).
Proof.
  unfold find_rejects, keggapi_find. rewrite <- str_in_pair.
  destruct (str_in database db_categories); simpl; [| done].
  by intros ->.
Qed.

Lemma keggapi_find_accepts E w database query option wd verbose force key :
  find_rejects database option = false →
  (keggapi_find database query option wd verbose force E w).1
  ≠ Raise (KEGGKeyError key).
Proof.
  intros Hok. apply not_key_error_neq. intros e. revert E w e.
  change (raises_only not_key_error
            (keggapi_find database query option wd verbose force)).
  unfold find_rejects in Hok. unfold keggapi_find. rewrite <- str_in_pair.
  apply orb_false_iff in Hok as [-> ->]. simpl.
  apply raises_only_bind; [apply raises_only_ret | intros [q qurl]].
  apply raises_only_bind; [apply push_backslash_raises_only | intros [o ourl]].
  apply raises_only_bind; [apply as_str_raises_only | intros q'].
  apply raises_only_bind; [apply as_str_raises_only | intros o'].
  apply raises_only_bind; [apply download_textfile_raises_only | intros text].
  apply parse_listing_raises_only.
Qed.

(** C3, as the code has it.  [keggapi_find] raises [KEGGKeyError] for a
    database outside the category set, and for "compound" or "drug" with an
    option outside the three names.  For any other database of the category
    set it never raises [KEGGKeyError], whatever the option, and an option
    that is given goes into the url, find/database/query/option, and into
    the name of the cache file, database_query_option: the call is the
    download of that url under that name, followed by the parsing. *)
Theorem keggapi_find_option_rule
    E w database query option wd verbose force :
  (database ∉ db_categories →
   keggapi_find database query option wd verbose force E w
   = (Raise (KEGGKeyError database), w)) ∧
  (database ∈ ["compound"; "drug"] →
   ∀ o, option = Some o → o ∉ find_options →
   keggapi_find database query option wd verbose force E w
   = (Raise (KEGGKeyError database), w)) ∧
  (database ∈ db_categories → database ∉ ["compound"; "drug"] →
   (∀ key,
      (keggapi_find database query option wd verbose force E w).1
      ≠ Raise (KEGGKeyError key)) ∧
   ∀ o, option = Some o →
     keggapi_find database query option wd verbose force E w
     = (let* fulltext :=
          download_textfile
            ("http://rest.kegg.jp/find/" +:+ database +:+ "/" +:+ query
             +:+ "/" +:+ o)
            (database +:+ "_" +:+ query +:+ "_" +:+ o) force verbose in
        parse_listing fulltext wd lengths_msg) E w).
Proof.
  split_and!.
  - intros H%str_in_false. apply keggapi_find_rejects.
    unfold find_rejects. by rewrite H.
  - intros Hdb%str_in_true o -> Ho%str_in_false.
    apply keggapi_find_rejects. unfold find_rejects.
    rewrite Hdb. simpl. rewrite Ho. apply orb_true_r.
  - intros Hdb%str_in_true Hother%str_in_false. split.
    + intros key. apply keggapi_find_accepts. unfold find_rejects.
      by rewrite Hdb, Hother.
    + intros o ->. unfold keggapi_find.
      rewrite str_in_pair in Hother. by rewrite Hdb, Hother.
Qed.

Lemma keggapi_find_option_rule_witness :
  ("drug" ∈ ["compound"; "drug"]) ∧ ("mass" ∉ find_options) ∧
  (keggapi_find "drug" "aspirin" (Some "mass") false false false
     (kegg decode_none) no_cache
   = (Raise (KEGGKeyError "drug"), no_cache)) ∧
  ("pathway" ∈ db_categories) ∧ ("pathway" ∉ ["compound"; "drug"]) ∧
  (keggapi_find "pathway" "q" (Some "formula") false false false
     (kegg decode_none) no_cache
   = (let* fulltext :=
        download_textfile find_url "pathway_q_formula" false false in
      parse_listing fulltext false lengths_msg) (kegg decode_none) no_cache).
Proof.
  assert ("drug" ∈ ["compound"; "drug"]) as Hdb by decided.
  assert ("mass" ∉ find_options) as Ho by decided.
  assert ("pathway" ∈ db_categories) as Hin by decided.
  assert ("pathway" ∉ ["compound"; "drug"]) as Hother by decided.
  split_and!; [exact Hdb | exact Ho | | exact Hin | exact Hother |].
  - exact (proj1 (proj2 (keggapi_find_option_rule (kegg decode_none)
                           no_cache "drug" "aspirin" (Some "mass")
                           false false false))
             Hdb "mass" eq_refl Ho).
  - exact (proj2 (proj2 (proj2 (keggapi_find_option_rule (kegg decode_none)
                                  no_cache "pathway" "q" (Some "formula")
                                  false false false))
                    Hin Hother) "formula" eq_refl).
Defined.

(** [find] on "pathway" with the option "formula": no [KEGGKeyError], the
    url with the option is requested and its listing returned. *)
Lemma keggapi_find_pathway_formula :
  let out :=
    keggapi_find "pathway" "q" (Some "formula") false false false
      (kegg decode_none) no_cache in
  ("pathway" ∉ ["compound"; "drug"]) ∧
  out.1 = Ok (Items ["a"]) ∧
  requests_of (log out.2) = [find_url].
Proof. split; [decided | by vm_compute]. Qed.

(** ** [keggapi_link] *)

Lemma keggapi_link_rejects E w source target verbose force :
  target ∉ db_categories →
  keggapi_link source target verbose force E w
  = (Raise (KEGGKeyError target), w).
Proof.
  intros H%str_in_false. unfold keggapi_link. by rewrite H.
Qed.

(** ** [keggapi_list] *)

Lemma get_organism_codes_stats E w :
  ∃ rest,
    log (get_organism_codes E w).2
    = log w ++ Stat (download_dir +:+ org_filename) :: rest.
Proof.
  unfold get_organism_codes. rewrite bind_run.
  destruct (download_textfile_stats E w org_url org_filename false false)
    as [rest Hrest].
  destruct (download_textfile _ _ _ _ E w) as [[text | e] w1]; simpl in *;
    eauto.
Qed.

(** [keggapi_list] loads the organism codes, then checks its arguments,
    then goes on to the download. *)
Lemma keggapi_list_start E w database option wd force :
  keggapi_list database option wd force E w
  = match get_organism_codes E w with
    | (Raise e, w1) => (Raise e, w1)
    | (Ok org_codes, w1) =>
        if list_rejects org_codes database option
        then (Raise (KEGGKeyError database), w1)
        else
          (let* (option, optionurl) := push_backslash option in
           let url := "http://rest.kegg.jp/list/" +:+ database +:+ optionurl in
           let* option := as_str option in
           let filename := database +:+ "_" +:+ option +:+ "_list" in
           let* list_fulltext := download_textfile url filename force true in
           parse_listing list_fulltext wd "different length, funny innit")
            E w1
    end.
Proof.
  unfold keggapi_list. rewrite bind_run.
  destruct (get_organism_codes E w) as [[org_codes | e] w1]; [| done].
  unfold list_rejects. rewrite str_in_pair.
  destruct (str_in database db_categories); simpl; [| done].
  destruct (opt_eq option "xl" && negb (str_eq database "brite")); simpl;
    [done |].
  rewrite negb_orb, andb_assoc.
  by destruct (opt_in option org_codes && negb (str_eq database "pathway")
               && negb (str_eq database "module")).
Qed.

Lemma keggapi_list_accepts E w w1 org_codes database option wd force key :
  get_organism_codes E w = (Ok org_codes, w1) →
  list_rejects org_codes database option = false →
  (keggapi_list database option wd force E w).1 ≠ Raise (KEGGKeyError key).
Proof.
  intros Hcodes Hok. rewrite keggapi_list_start, Hcodes, Hok.
  apply not_key_error_neq. intros e. revert e.
  generalize E w1. clear. intros E w. revert E w.
  apply raises_only_bind; [apply push_backslash_raises_only | intros [o ourl]].
  apply raises_only_bind; [apply as_str_raises_only | intros o'].
  apply raises_only_bind; [apply download_textfile_raises_only | intros text].
  apply parse_listing_raises_only.
Qed.

(** C4, as the code has it.  Once [keggapi_list] has loaded the organism
    codes: a database outside the category set raises [KEGGKeyError]; the
    option "xl" with a database other than "brite" raises [KEGGKeyError];
    and "brite" with "xl", when "xl" is no organism code, passes the checks:
    the call goes on to download the url of the listing and raises no
    [KEGGKeyError]. *)
Theorem keggapi_list_validation E w org_codes w1 wd force :
  get_organism_codes E w = (Ok org_codes, w1) →
  (∀ database option,
     database ∉ db_categories →
     keggapi_list database option wd force E w
     = (Raise (KEGGKeyError database), w1)) ∧
  (∀ database,
     database ≠ "brite" →
     keggapi_list database (Some "xl") wd force E w
     = (Raise (KEGGKeyError database), w1)) ∧
  ("xl" ∉ org_codes →
   keggapi_list "brite" (Some "xl") wd force E w
   = (let* list_fulltext :=
        download_textfile "http://rest.kegg.jp/list/brite/xl" "brite_xl_list"
          force true in
      parse_listing list_fulltext wd "different length, funny innit") E w1 ∧
   ∀ key,
     (keggapi_list "brite" (Some "xl") wd force E w).1
     ≠ Raise (KEGGKeyError key)).
Proof.
  intros Hcodes. split_and!.
  - intros database option H%str_in_false.
    rewrite keggapi_list_start, Hcodes. unfold list_rejects. by rewrite H.
  - intros database H. rewrite keggapi_list_start, Hcodes.
    unfold list_rejects.
    assert (str_eq database "brite" = false) as ->
      by by apply bool_decide_eq_false.
    simpl. by rewrite orb_true_r.
  - intros Hxl%str_in_false.
    assert (list_rejects org_codes "brite" (Some "xl") = false) as Hok.
    { unfold list_rejects. simpl. by rewrite Hxl. }
    split; [| intros key; by eapply keggapi_list_accepts].
    by rewrite keggapi_list_start, Hcodes, Hok.
Qed.

Lemma keggapi_list_validation_witness :
  let w1 :=
    World (Some {[ download_dir +:+ org_filename := organism_page ]})
      (events_fetch org_url org_filename organism_page false) in
  get_organism_codes (kegg decode_none) no_cache = (Ok ["hsa"], w1) ∧
  keggapi_list "pathway" (Some "xl") false false (kegg decode_none) no_cache
  = (Raise (KEGGKeyError "pathway"), w1) ∧
  (keggapi_list "brite" (Some "xl") false false
     (kegg decode_none) no_cache).1
  = Ok (Items ["a"]).
Proof.
  intros w1.
  assert (get_organism_codes (kegg decode_none) no_cache = (Ok ["hsa"], w1))
    as Hcodes by (by vm_compute).
  destruct (keggapi_list_validation _ _ _ _ false false Hcodes)
    as (_ & Hxl & Hbrite).
  split_and!; [exact Hcodes | |].
  - apply Hxl. discriminate.
  - destruct Hbrite as [-> _]; [decided | by vm_compute].
Defined.

(** The server answers with an error status: [keggapi_list] on a database
    outside the category set fails with [KEGGOnlineError], raised while the
    organism codes are loaded. *)
Lemma keggapi_list_server_down :
  ("not-a-real-db" ∉ db_categories) ∧
  (keggapi_list "not-a-real-db" None false false kegg_down no_cache).1
  = Raise (KEGGOnlineError org_url).
Proof. split; [decided | by vm_compute]. Qed.

(** ** Validation and I/O *)

(** C2, as the code has it.  [keggapi_find], [keggapi_get] and
    [keggapi_link] raise [KEGGKeyError] for an argument outside the
    vocabulary and leave the world as it was: no request, no file access.
    [keggapi_list] first loads the organism codes, which begins with a test
    for the cached file; once they are loaded, an argument outside the
    vocabulary raises [KEGGKeyError] with no further I/O. *)
Theorem validation_before_io E w :
  (∀ database query option wd verbose force,
     find_rejects database option = true →
     keggapi_find database query option wd verbose force E w
     = (Raise (KEGGKeyError database), w)) ∧
  (∀ dbentry option wd verbose force,
     option ∉ get_options →
     keggapi_get dbentry (Some option) wd verbose force E w
     = (Raise (KEGGKeyError option), w)) ∧
  (∀ source target verbose force,
     target ∉ db_categories →
     keggapi_link source target verbose force E w
     = (Raise (KEGGKeyError target), w)) ∧
  (∀ database option wd force org_codes w1,
     get_organism_codes E w = (Ok org_codes, w1) →
     list_rejects org_codes database option = true →
     keggapi_list database option wd force E w
     = (Raise (KEGGKeyError database), w1) ∧
     ∃ rest, log w1 = log w ++ Stat (download_dir +:+ org_filename) :: rest).
Proof.
  split_and!.
  - intros. by apply keggapi_find_rejects.
  - intros. by apply keggapi_get_rejects.
  - intros. by apply keggapi_link_rejects.
  - intros database option wd force org_codes w1 Hcodes Hrej. split.
    + by rewrite keggapi_list_start, Hcodes, Hrej.
    + destruct (get_organism_codes_stats E w) as [rest Hrest].
      rewrite Hcodes in Hrest. eauto.
Qed.

Lemma validation_before_io_witness :
  let w1 :=
    World (Some {[ download_dir +:+ org_filename := organism_page ]})
      (events_fetch org_url org_filename organism_page false) in
  (find_rejects "not-a-real-db" None = true) ∧
  (keggapi_find "not-a-real-db" "q" None false true false
     (kegg decode_none) no_cache
   = (Raise (KEGGKeyError "not-a-real-db"), no_cache)) ∧
  ("pdf" ∉ get_options) ∧
  (keggapi_get "hsa:10458" (Some "pdf") false true false
     (kegg decode_none) no_cache
   = (Raise (KEGGKeyError "pdf"), no_cache)) ∧
  (keggapi_link "hsa" "not-a-real-db" true false (kegg decode_none) no_cache
   = (Raise (KEGGKeyError "not-a-real-db"), no_cache)) ∧
  (get_organism_codes (kegg decode_none) no_cache = (Ok ["hsa"], w1)) ∧
  (list_rejects ["hsa"] "glycan" (Some "hsa") = true) ∧
  (keggapi_list "glycan" (Some "hsa") false false (kegg decode_none) no_cache
   = (Raise (KEGGKeyError "glycan"), w1)).
Proof.
  intros w1.
  destruct (validation_before_io (kegg decode_none) no_cache)
    as (Hfind & Hget & Hlink & Hlist).
  assert ("pdf" ∉ get_options) as Hpdf by decided.
  assert (get_organism_codes (kegg decode_none) no_cache = (Ok ["hsa"], w1))
    as Hcodes by (by vm_compute).
  split_and!; [reflexivity | | exact Hpdf | | | exact Hcodes | reflexivity |].
  - apply Hfind. reflexivity.
  - apply Hget. exact Hpdf.
  - apply Hlink. decided.
  - apply (Hlist _ _ _ _ _ _ Hcodes). reflexivity.
Defined.

(** [keggapi_list] on a database outside the category set, with an empty
    cache: the organism list is requested and written to the cache before
    [KEGGKeyError] is raised. *)
Lemma keggapi_list_io_before_key_error :
  let out :=
    keggapi_list "not-a-real-db" None false false
      (kegg decode_none) no_cache in
  out.1 = Raise (KEGGKeyError "not-a-real-db") ∧
  log out.2
  = [ Stat (download_dir +:+ org_filename); Request org_url;
      Mkdir download_dir;
      Write (download_dir +:+ org_filename) organism_page ] ∧
  file_at out.2 (download_dir +:+ org_filename) = Some organism_page.
Proof. by vm_compute. Qed.

(** ** [download_pic] *)

Lemma variant_path_read filename fmt :
  get_fname_path filename +:+ "." +:+ fmt = variant_path filename fmt.
Proof. unfold get_fname_path, variant_path. by rewrite append_assoc. Qed.

Lemma variant_path_differ filename :
  variant_path filename "gif" ≠ variant_path filename "png".
Proof.
  unfold variant_path. intros H.
  do 3 apply (inj (String.app _)) in H. discriminate H.
Qed.

Lemma readable_log E w l path :
  readable E (World (cache w) l) path = readable E w path.
Proof. reflexivity. Qed.

Lemma requests_of_events_stat w filename :
  requests_of (events_stat w filename) = [].
Proof. unfold events_stat. by destruct (bool_decide _). Qed.

(** [mpimg.imread] raises when the file is missing or cannot be decoded. *)
Lemma imread_run E w path :
  imread path E w
  = (match file_at w path with
     | None => Raise (FileNotFoundError path)
     | Some content =>
         match imread_decode E content with
         | Some a => Ok a
         | None => Raise (ImageDecodeError path)
         end
     end,
     World (cache w) (log w ++ [Read path])).
Proof.
  unfold imread. unfold_io.
  destruct (file_at w path) as [content|]; [| done].
  by destruct (imread_decode E content).
Qed.

Lemma imread_unreadable E w path :
  readable E w path = None → ∃ e, (imread path E w).1 = Raise e.
Proof.
  unfold readable. rewrite imread_run. simpl.
  destruct (file_at w path) as [content|]; simpl; [| eauto].
  intros ->. eauto.
Qed.

(** Under the bare [except] nothing that [imread] raises gets out. *)
Lemma try_imread_run E w path :
  try_except (imread path) E w
  = (Ok (readable E w path), World (cache w) (log w ++ [Read path])).
Proof.
  unfold try_except, readable. rewrite imread_run.
  destruct (file_at w path) as [content|]; [| done]. simpl.
  by destruct (imread_decode E content).
Qed.

Lemma all_absent_run E w filename :
  all_absent [filename +:+ ".gif"; filename +:+ ".png"] E w
  = (Ok (negb (bool_decide
                 (is_Some (file_at w (variant_path filename "gif"))))
         && negb (bool_decide
                    (is_Some (file_at w (variant_path filename "png"))))),
     World (cache w) (log w ++ events_stat w filename)).
Proof.
  unfold all_absent, events_stat. unfold_io.
  change (download_dir +:+ filename +:+ ".gif")
    with (variant_path filename "gif").
  change (download_dir +:+ filename +:+ ".png")
    with (variant_path filename "png").
  destruct (bool_decide (is_Some (file_at w (variant_path filename "gif"))));
    simpl; [done |].
  unfold file_at at 1. simpl. fold (file_at w (variant_path filename "png")).
  destruct (bool_decide (is_Some (file_at w (variant_path filename "png"))));
    simpl; by rewrite <- app_assoc.
Qed.

(** A variant is cached and the download is not forced. *)
Lemma download_pic_cached E w url filename verbose :
  is_Some (file_at w (variant_path filename "gif")) ∨
  is_Some (file_at w (variant_path filename "png")) →
  download_pic url filename false verbose E w
  = (cached_result E w filename,
     World (cache w)
       (log w ++ events_stat w filename ++
        [Read (variant_path filename "gif");
         Read (variant_path filename "png")])).
Proof.
  intros Hsome. unfold download_pic. rewrite bind_run, all_absent_run.
  assert (negb (bool_decide
                  (is_Some (file_at w (variant_path filename "gif"))))
          && negb (bool_decide
                     (is_Some (file_at w (variant_path filename "png"))))
          || false = false) as ->.
  { destruct Hsome as [H | H]; rewrite (bool_decide_eq_true_2 _ H);
      simpl; by rewrite ?andb_false_r. }
  rewrite bind_run. unfold read_variants.
  rewrite bind_run, !variant_path_read, try_imread_run.
  rewrite bind_run, try_imread_run. simpl.
  rewrite !(readable_log E w). unfold cached_result.
  rewrite <- !app_assoc.
  by destruct (readable E w (variant_path filename "gif")),
    (readable E w (variant_path filename "png")).
Qed.

(** The branch of [download_pic] that downloads, whatever the directory
    and the server do. *)
Lemma download_pic_download E w url filename force verbose :
  file_at w (variant_path filename "gif") = None ∧
  file_at w (variant_path filename "png") = None ∨ force = true →
  download_pic url filename force verbose E w
  = match http_get E (length (requests_of (log w))) url with
    | None =>
        (Raise
           (request_exn (http_error E (length (requests_of (log w))) url) url),
         World (cache w) (log w ++ events_request w url filename verbose))
    | Some r =>
        match cache w with
        | None =>
            (Raise (FileNotFoundError tmp_path),
             World None
               (log w ++ events_request w url filename verbose ++
                [Write tmp_path (body r)]))
        | Some files => stored_result w files url filename verbose r
        end
    end.
Proof.
  intros Hbranch.
  unfold download_pic. rewrite bind_run, all_absent_run.
  assert (negb (bool_decide
                  (is_Some (file_at w (variant_path filename "gif"))))
          && negb (bool_decide
                     (is_Some (file_at w (variant_path filename "png"))))
          || force = true) as ->.
  { destruct Hbranch as [[-> ->] | ->]; [| by rewrite orb_true_r].
    by rewrite bool_decide_eq_false_2 by by intros [? [=]]. }
  unfold stored_result, events_request, events_image, events_stat.
  unfold request_image, imghdr_what.
  fold tmp_path. unfold sniff. unfold_io.
  destruct (bool_decide (is_Some (file_at w (variant_path filename "gif"))));
    destruct verbose; simpl;
    rewrite ?requests_of_app; simpl; rewrite ?app_nil_r;
    (destruct (http_get E (length (requests_of (log w))) url) as [r|];
     simpl; [| by rewrite <- !app_assoc]);
    (destruct (cache w) as [files|] eqn:Hcache; simpl;
     [| by rewrite <- !app_assoc]);
    rewrite directory_tmp_path; simpl;
    unfold file_at; simpl; rewrite lookup_insert_eq; simpl;
    (destruct (imghdr_tests (slice 0 32 (body r))) as [fmt|]; simpl;
     [destruct (str_in fmt ["gif"; "png"]) eqn:Hfmt; simpl;
      rewrite ?lookup_insert_eq; simpl;
      rewrite ?variant_path_read, ?directory_of_variant_path,
        ?directory_insert_tmp_path by done;
      try destruct (directory files _); simpl |]);
    rewrite <- ?app_assoc; simpl; unfold variant_path;
    rewrite ?append_assoc, <- ?app_assoc; done.
Qed.

(** No variant is cached, the directory is there and the server answers. *)
Lemma download_pic_fetch E w files url filename force verbose r :
  cache w = Some files →
  files !! variant_path filename "gif" = None →
  files !! variant_path filename "png" = None →
  http_get E (length (requests_of (log w))) url = Some r →
  download_pic url filename force verbose E w
  = stored_result w files url filename verbose r.
Proof.
  intros Hcache Hgif Hpng Hget.
  rewrite download_pic_download, Hget, Hcache; [done |].
  left. unfold file_at. by rewrite Hcache.
Qed.

(** C9.  In the branch of [download_pic] that reads the cache (a variant is
    there and the download is not forced): a variant that cannot be read
    makes [imread] raise, nothing of that gets out of the bare [except],
    and when neither variant can be read the call fails with
    [UnboundLocalError] on [img], a [NameError], and not with
    [FileNotFoundError].  No request is sent. *)
Theorem download_pic_cached_unbound E w url filename verbose :
  is_Some (file_at w (variant_path filename "gif")) ∨
  is_Some (file_at w (variant_path filename "png")) →
  let out := download_pic url filename false verbose E w in
  (∀ fmt, fmt ∈ ["gif"; "png"] →
     readable E w (variant_path filename fmt) = None →
     ∃ e, (imread (variant_path filename fmt) E w).1 = Raise e) ∧
  (∀ e, out.1 = Raise e → e = UnboundLocalError "img") ∧
  (readable E w (variant_path filename "gif") = None →
   readable E w (variant_path filename "png") = None →
   out.1 = Raise (UnboundLocalError "img") ∧
   is_NameError (UnboundLocalError "img") = true) ∧
  requests_of (log out.2) = requests_of (log w).
Proof.
  intros Hsome. cbn zeta. rewrite download_pic_cached by done.
  cbn [fst snd log]. split_and!.
  - intros fmt _. apply imread_unreadable.
  - unfold cached_result. intros e.
    destruct (readable E w (variant_path filename "png")); [done |].
    destruct (readable E w (variant_path filename "gif")); [done |].
    by intros [= <-].
  - unfold cached_result. by intros -> ->.
  - rewrite !requests_of_app, requests_of_events_stat. simpl.
    by rewrite app_nil_r.
Qed.

Lemma download_pic_cached_unbound_witness :
  is_Some (file_at gif_cached (variant_path "hsa05130_image" "gif")) ∧
  (download_pic image_url "hsa05130_image" false true
     (kegg decode_none) gif_cached).1
  = Raise (UnboundLocalError "img").
Proof.
  assert (is_Some (file_at gif_cached (variant_path "hsa05130_image" "gif")))
    as Hgif by decided.
  split; [exact Hgif |].
  destruct (download_pic_cached_unbound (kegg decode_none) gif_cached
              image_url "hsa05130_image" true (or_introl Hgif))
    as (_ & _ & Hunbound & _).
  exact (proj1 (Hunbound eq_refl eq_refl)).
Defined.

(** The PNG variant alone is cached: it is read again, without a request. *)
Lemma download_pic_reload E w url filename verbose content :
  file_at w (variant_path filename "png") = Some content →
  file_at w (variant_path filename "gif") = None →
  let out := download_pic url filename false verbose E w in
  requests_of (log out.2) = requests_of (log w) ∧
  ∀ a, imread_decode E content = Some a → out.1 = Ok (Raster a).
Proof.
  intros Hpng Hgif. cbn zeta. rewrite download_pic_cached by eauto.
  cbn [fst snd log]. split.
  - rewrite !requests_of_app, requests_of_events_stat. simpl.
    by rewrite app_nil_r.
  - intros a Ha. unfold cached_result, readable.
    rewrite Hpng. simpl. by rewrite Ha.
Qed.

(** C7, as the code has it.  [download_pic] with no cached variant, in an
    existing cache directory, once the server has answered: bytes that
    sniff neither as GIF nor as PNG make the call fail with
    [AssertionError]; bytes that sniff as PNG are stored under the filename
    followed by ".png" when that file can be written (the name is proper
    and its directory is there, as for the usual filenames without a
    slash), and a later call for the same filename that does not force the
    download sends no request and returns the raster read from that file
    whenever the decoder can decode the bytes. *)
Theorem download_pic_sniffs E w files url filename force verbose r :
  cache w = Some files →
  files !! variant_path filename "gif" = None →
  files !! variant_path filename "png" = None →
  http_get E (length (requests_of (log w))) url = Some r →
  let first := download_pic url filename force verbose E w in
  (sniff (body r) ≠ Some "gif" → sniff (body r) ≠ Some "png" →
   first.1 = Raise (AssertionError format_msg)) ∧
  (sniff (body r) = Some "png" →
   writable w (filename +:+ ".png") = true →
   first.1 = Ok (RawStream r) ∧
   file_at first.2 (variant_path filename "png") = Some (body r) ∧
   ∀ url' verbose',
     let second := download_pic url' filename false verbose' E first.2 in
     requests_of (log second.2) = requests_of (log first.2) ∧
     ∀ a, imread_decode E (body r) = Some a → second.1 = Ok (Raster a)).
Proof.
  intros Hcache Hgif Hpng Hget. simpl.
  rewrite (download_pic_fetch _ _ files _ _ _ _ r) by done.
  unfold stored_result. split.
  - intros Hnot_gif Hnot_png.
    destruct (sniff (body r)) as [fmt|]; [| done].
    destruct (str_in fmt ["gif"; "png"]) eqn:Hfmt; [| done].
    by apply format_known in Hfmt as [-> | ->].
  - intros -> Hdir%writable_has_directory. unfold has_directory in Hdir.
    rewrite <- append_assoc, directory_of_app, Hcache in Hdir by done.
    simpl in Hdir. change (str_in "png" ["gif"; "png"]) with true.
    cbn iota. rewrite Hdir. simpl. set (w1 := World _ _).
    assert (file_at w1 (variant_path filename "png") = Some (body r))
      as Hfile by apply lookup_insert_eq.
    assert (file_at w1 (variant_path filename "gif") = None) as Hnone.
    { unfold file_at, w1. simpl.
      rewrite lookup_insert_ne by (symmetry; apply variant_path_differ).
      rewrite lookup_delete. case_decide; [done |].
      by rewrite lookup_insert_ne. }
    split_and!; [done | done |].
    intros url' verbose'.
    exact (download_pic_reload E w1 url' filename verbose' (body r)
             Hfile Hnone).
Qed.

Lemma download_pic_sniffs_witness :
  let first :=
    download_pic image_url "hsa05130_image" false false
      (kegg decode_png) empty_cache in
  (sniff png_head = Some "png") ∧
  writable empty_cache "hsa05130_image.png" = true ∧
  first.1 = Ok (RawStream (Response true png_head)) ∧
  (download_pic image_url "hsa05130_image" false false
     (kegg decode_png) first.2).1
  = Ok (Raster [[0%N]]).
Proof.
  assert (sniff png_head = Some "png") as Hpng by reflexivity.
  assert (writable empty_cache "hsa05130_image.png" = true) as Hdir
    by reflexivity.
  destruct (download_pic_sniffs (kegg decode_png) empty_cache ∅
              image_url "hsa05130_image" false false
              (Response true png_head))
    as (_ & Hstored);
    [reflexivity | apply lookup_empty | apply lookup_empty | by vm_compute |].
  destruct (Hstored Hpng Hdir) as (Hfirst & _ & Hsecond).
  split_and!; [exact Hpng | exact Hdir | exact Hfirst |].
  exact (proj2 (Hsecond image_url false) [[0%N]] eq_refl).
Defined.

(** Bytes that begin like a PNG file and stop there sniff as PNG and are
    stored, but the decoder cannot read them: the later call fails with
    [UnboundLocalError] instead of returning an image. *)
Lemma download_pic_undecodable_png :
  let first :=
    download_pic image_url "hsa05130_image" false false
      (kegg decode_none) empty_cache in
  let second :=
    download_pic image_url "hsa05130_image" false false
      (kegg decode_none) first.2 in
  sniff png_head = Some "png" ∧
  first.1 = Ok (RawStream (Response true png_head)) ∧
  file_at first.2 (variant_path "hsa05130_image" "png") = Some png_head ∧
  second.1 = Raise (UnboundLocalError "img").
Proof. by vm_compute. Qed.

(** * Further properties *)

(** ** Lines and fields *)

Lemma length_split_from field s :
  length (split_from TAB field s) = S (count_tab s).
Proof.
  revert field. induction s as [|c s IH]; intros field; simpl; [done |].
  destruct (Ascii.eqb c TAB); simpl; by rewrite IH.
Qed.

(** A stripped line has one field more than it has tabs. *)
Lemma has_fields_count n line :
  has_fields n line = true ↔ S (count_tab (strip line)) = n.
Proof.
  unfold has_fields, fields, split_on.
  by rewrite bool_decide_eq_true, length_split_from.
Qed.

Lemma forallb_has_fields n lines :
  forallb (has_fields n) lines = true
  ↔ Forall (λ line, S (count_tab (strip line)) = n) lines.
Proof.
  rewrite forallb_forall, Forall_forall. split; intros H line Hin.
  - apply has_fields_count, H. by apply list_elem_of_In.
  - apply has_fields_count, H. by apply list_elem_of_In.
Qed.

Lemma forallb_has_fields_not n lines :
  ¬ Forall (λ line, S (count_tab (strip line)) = n) lines →
  forallb (has_fields n) lines = false.
Proof.
  intros Hnot. destruct (forallb _ _) eqn:Hall; [| done].
  by apply forallb_has_fields in Hall.
Qed.

(** The loop of [process_request_text] in closed form. *)
Lemma request_lines_fields lines itemlist descriptionlist :
  request_lines lines itemlist descriptionlist
  = if forallb (has_fields 2) lines
    then Ok (itemlist ++ (field 0 <$> lines),
             descriptionlist ++ (field 1 <$> lines))
    else Raise ValueError.
Proof.
  revert itemlist descriptionlist.
  induction lines as [|line lines IH]; intros itemlist descriptionlist.
  - simpl. by rewrite !app_nil_r.
  - simpl. unfold has_fields at 1, field at 1 3, fields.
    destruct (split_on TAB (strip line)) as [|a [|b [|c l]]]; simpl; try done.
    rewrite IH. destruct (forallb _ _); [| done].
    by rewrite <- !app_assoc.
Qed.

(** The loop of [get_organism_codes] in closed form. *)
Lemma organism_lines_fields lines org_codes :
  organism_lines lines org_codes
  = if forallb (has_fields 4) lines
    then Ok (org_codes ++ (field 1 <$> lines))
    else Raise ValueError.
Proof.
  revert org_codes.
  induction lines as [|line lines IH]; intros org_codes.
  - simpl. by rewrite !app_nil_r.
  - simpl. unfold has_fields at 1, field at 1, fields.
    destruct (split_on TAB (strip line)) as [|a [|b [|c [|d [|e l]]]]];
      simpl; try done.
    rewrite IH. destruct (forallb _ _); [| done].
    by rewrite <- !app_assoc.
Qed.

Lemma organism_lines_raises lines org_codes e :
  organism_lines lines org_codes = Raise e → e = ValueError.
Proof.
  rewrite organism_lines_fields. destruct (forallb _ _); [done |].
  by intros [= <-].
Qed.

(** X1.  [process_request_text] returns exactly when every line of the
    text, stripped, holds one tab: it then gives the part before the tab of
    each line as items and the part after it as descriptions, in line
    order.  As soon as one line, stripped, has no tab or more than one (a
    blank line, a line whose description is empty), it raises
    [ValueError]. *)
Theorem process_request_text_fields fulltext want_descr :
  let lines := splitlines fulltext in
  (Forall (λ line, S (count_tab (strip line)) = 2) lines →
   process_request_text fulltext want_descr
   = Ok (if want_descr
         then ItemsDescr (field 0 <$> lines) (field 1 <$> lines)
         else Items (field 0 <$> lines))) ∧
  (¬ Forall (λ line, S (count_tab (strip line)) = 2) lines →
   process_request_text fulltext want_descr = Raise ValueError).
Proof.
  intros lines. unfold process_request_text. fold lines.
  rewrite request_lines_fields. split.
  - intros H%forallb_has_fields. rewrite H. by destruct want_descr.
  - intros H%forallb_has_fields_not. by rewrite H.
Qed.

Lemma process_request_text_fields_witness :
  Forall (λ line, S (count_tab (strip line)) = 2) (splitlines short_page) ∧
  process_request_text short_page true = Ok (ItemsDescr ["a"] ["x"]) ∧
  ¬ Forall (λ line, S (count_tab (strip line)) = 2)
      (splitlines ("a" +:+ chr TAB)) ∧
  process_request_text ("a" +:+ chr TAB) true = Raise ValueError.
Proof.
  assert (Forall (λ line, S (count_tab (strip line)) = 2)
            (splitlines short_page)) as Hgood by decided.
  assert (¬ Forall (λ line, S (count_tab (strip line)) = 2)
              (splitlines ("a" +:+ chr TAB))) as Hbad by decided.
  split_and!; [exact Hgood | | exact Hbad |].
  - exact (proj1 (process_request_text_fields short_page true) Hgood).
  - exact (proj2 (process_request_text_fields ("a" +:+ chr TAB) true) Hbad).
Defined.

(** ** Universal newlines *)

(** Induction over a string two characters at a time. *)
Lemma string_pair_ind (P : string → Prop) :
  P "" →
  (∀ c, P (String c "")) →
  (∀ c c' s, P s → P (String c' s) → P (String c (String c' s))) →
  ∀ s, P s.
Proof.
  intros Hnil Hone Hstep s.
  assert (P s ∧ ∀ c, P (String c s)) as [H _]; [| done].
  induction s as [|c' s [IH1 IH2]]; [by split |].
  split; [apply IH2 |]. intros c. by apply Hstep.
Qed.

Lemma universal_newlines_pair c c' s :
  universal_newlines (String c (String c' s))
  = if Ascii.eqb c CR
    then String LF (if Ascii.eqb c' LF then universal_newlines s
                    else universal_newlines (String c' s))
    else String c (universal_newlines (String c' s)).
Proof. reflexivity. Qed.

Lemma universal_newlines_no_cr s : no_cr (universal_newlines s) = true.
Proof.
  induction s as [|c|c c' s IH1 IH2] using string_pair_ind; [done | |].
  - simpl. by destruct (Ascii.eqb c CR) eqn:Hc; simpl; rewrite ?Hc.
  - rewrite universal_newlines_pair.
    destruct (Ascii.eqb c CR) eqn:Hc.
    + destruct (Ascii.eqb c' LF); [apply IH1 | apply IH2].
    + change (negb (Ascii.eqb c CR)
              && no_cr (universal_newlines (String c' s)) = true).
      by rewrite Hc, IH2.
Qed.

Lemma universal_newlines_id s : no_cr s = true → universal_newlines s = s.
Proof.
  induction s as [|c s IH]; simpl; [done |].
  intros [Hc Hs]%andb_true_iff. apply negb_true_iff in Hc.
  by rewrite Hc, IH.
Qed.

Lemma universal_newlines_idem s :
  universal_newlines (universal_newlines s) = universal_newlines s.
Proof. apply universal_newlines_id, universal_newlines_no_cr. Qed.

Lemma splitlines_from_break line c t :
  is_linebreak c = true → Ascii.eqb c CR = false →
  splitlines_from line (String c t) = line :: splitlines_from "" t.
Proof. intros Hb Hc. simpl. rewrite Hb, Hc. by destruct t. Qed.

Lemma splitlines_from_CR line c' t :
  splitlines_from line (String CR (String c' t))
  = line :: if Ascii.eqb c' LF then splitlines_from "" t
            else splitlines_from "" (String c' t).
Proof. reflexivity. Qed.

Lemma splitlines_from_char line c t :
  is_linebreak c = false →
  splitlines_from line (String c t) = splitlines_from (line +:+ chr c) t.
Proof. intros Hb. simpl. by rewrite Hb. Qed.

(** [splitlines] does not see the difference that universal newlines
    make. *)
Lemma splitlines_from_universal_newlines s :
  ∀ line, splitlines_from line (universal_newlines s) = splitlines_from line s.
Proof.
  induction s as [|c|c c' s IH1 IH2] using string_pair_ind; intros line.
  - done.
  - simpl. destruct (Ascii.eqb c CR) eqn:Hc; [| done].
    by apply Ascii.eqb_eq in Hc as ->.
  - rewrite universal_newlines_pair.
    destruct (Ascii.eqb c CR) eqn:Hc.
    + apply Ascii.eqb_eq in Hc as ->.
      rewrite splitlines_from_CR, splitlines_from_break by done.
      by destruct (Ascii.eqb c' LF); rewrite ?IH1, ?IH2.
    + destruct (is_linebreak c) eqn:Hb.
      * rewrite !splitlines_from_break by done. by rewrite IH2.
      * rewrite !splitlines_from_char by done. by rewrite IH2.
Qed.

Lemma splitlines_universal_newlines s :
  splitlines (universal_newlines s) = splitlines s.
Proof. apply splitlines_from_universal_newlines. Qed.

Lemma splitlines_unlines lines :
  Forall (λ line, no_break line = true) lines →
  splitlines (unlines lines) = lines.
Proof.
  induction 1 as [|line lines Hline _ IH]; [done |].
  simpl. by rewrite splitlines_cons, IH.
Qed.

(** ** [download_textfile], again *)

(** A successful call leaves its text in the cache, up to universal
    newlines. *)
Lemma download_textfile_ok E w url filename force verbose text w1 :
  download_textfile url filename force verbose E w = (Ok text, w1) →
  text ≠ chr LF ∧
  ∃ content,
    file_at w1 (download_dir +:+ filename) = Some content ∧
    universal_newlines content = universal_newlines text.
Proof.
  destruct (fresh_or_cached w (download_dir +:+ filename) force)
    as [Hfresh | (content & Hfile & ->)].
  - destruct (http_get E (length (requests_of (log w))) url) as [r|] eqn:Hget;
      [destruct (ok r) eqn:Hok;
       [destruct (has_directory w filename) eqn:Hdir |] |].
    + rewrite (download_textfile_fetch _ _ _ _ _ _ r) by done.
      destruct (str_eq (body r) (chr LF)) eqn:Heq; [done |].
      intros [= <- <-]. split.
      * intros H%str_eq_true. congruence.
      * exists (body r). split; [| done]. apply lookup_insert_eq.
    + by rewrite (download_textfile_no_directory _ _ _ _ _ _ r).
    + by rewrite (download_textfile_not_ok _ _ _ _ _ _ r).
    + by rewrite download_textfile_no_response.
  - rewrite (download_textfile_cached _ _ _ _ _ content) by done.
    destruct (str_eq _ _) eqn:Heq; [done |].
    intros [= <- <-]. split.
    + intros H%str_eq_true. congruence.
    + exists content. split; [done |]. by rewrite universal_newlines_idem.
Qed.

Lemma download_textfile_obtained E w url filename force verbose text :
  text_obtained E w url filename force text → text ≠ chr LF →
  (file_at w (download_dir +:+ filename) = None ∨ force = true →
   has_directory w filename = true) →
  ∃ w1, download_textfile url filename force verbose E w = (Ok text, w1).
Proof.
  intros [r Hfresh Hget Hok | content Hfile ->] Hne Hdir.
  - rewrite (download_textfile_fetch _ _ _ _ _ _ r) by auto.
    destruct (str_eq _ _) eqn:Heq; [by apply str_eq_true in Heq | eauto].
  - rewrite (download_textfile_cached _ _ _ _ _ content) by done.
    destruct (str_eq _ _) eqn:Heq; [by apply str_eq_true in Heq | eauto].
Qed.

(** [download_textfile] requests at most its url and touches no file but
    its own. *)
Lemma download_textfile_frame E w url filename force verbose :
  let out := download_textfile url filename force verbose E w in
  (requests_of (log out.2) = requests_of (log w) ∨
   requests_of (log out.2) = requests_of (log w) ++ [url]) ∧
  ∀ path, path ≠ download_dir +:+ filename →
    file_at out.2 path = file_at w path.
Proof.
  cbn zeta.
  destruct (fresh_or_cached w (download_dir +:+ filename) force)
    as [Hfresh | (content & Hfile & ->)].
  - destruct (http_get E (length (requests_of (log w))) url) as [r|] eqn:Hget;
      [destruct (ok r) eqn:Hok;
       [destruct (has_directory w filename) eqn:Hdir |] |].
    + rewrite (download_textfile_fetch _ _ _ _ _ _ r) by done.
      cbn [snd log]. split.
      * right. rewrite requests_of_app. by destruct verbose.
      * intros path Hpath. unfold file_at. cbn [cache].
        rewrite lookup_insert_ne by done. by destruct (cache w).
    + rewrite (download_textfile_no_directory _ _ _ _ _ _ r) by done.
      cbn [snd log]. split.
      * right. rewrite app_assoc, requests_of_app.
        rewrite (requests_of_app (log w)). destruct verbose; simpl;
          by rewrite app_nil_r.
      * intros path _. unfold file_at. cbn [cache]. by destruct (cache w).
    + rewrite (download_textfile_not_ok _ _ _ _ _ _ r) by done.
      cbn [snd log]. split; [| done].
      right. rewrite requests_of_app. by destruct verbose.
    + rewrite download_textfile_no_response by done.
      cbn [snd log]. split; [| done].
      right. rewrite requests_of_app. by destruct verbose.
  - rewrite (download_textfile_cached _ _ _ _ _ content) by done.
    cbn [snd log]. split; [| done].
    left. apply requests_of_events_cached.
Qed.



(** X3.  After a call of [download_textfile] that returned a text, a call
    for the same filename that does not force the download sends no
    request, leaves the cache as it is and returns what the text reads as
    with universal newlines; that is the same text whenever the text holds
    no carriage return. *)
Theorem download_textfile_reload E w url filename force verbose text w1 :
  download_textfile url filename force verbose E w = (Ok text, w1) →
  ∀ url' verbose',
    let again := download_textfile url' filename false verbose' E w1 in
    requests_of (log again.2) = requests_of (log w1) ∧
    cache again.2 = cache w1 ∧
    (universal_newlines text ≠ chr LF →
     again.1 = Ok (universal_newlines text)) ∧
    (no_cr text = true → again.1 = Ok text).
Proof.
  intros (Hne & content & Hfile & Hsame)%download_textfile_ok url' verbose'.
  cbn zeta. rewrite (download_textfile_cached _ _ _ _ _ content) by done.
  cbn [fst snd log cache]. rewrite Hsame.
  split_and!; [apply requests_of_events_cached | done | |].
  - intros H. destruct (str_eq _ _) eqn:Heq; [| done].
    by apply str_eq_true in Heq.
  - intros ->%universal_newlines_id.
    destruct (str_eq _ _) eqn:Heq; [| done]. by apply str_eq_true in Heq.
Qed.

Lemma download_textfile_reload_witness :
  let first :=
    download_textfile find_url "pathway_q_formula" false false
      (kegg decode_none) no_cache in
  first = (Ok short_page, first.2) ∧
  (download_textfile find_url "pathway_q_formula" false true
     (kegg decode_none) first.2).1
  = Ok short_page.
Proof.
  intros first.
  assert (first = (Ok short_page, first.2)) as Hfirst by (by vm_compute).
  subst first. split; [exact Hfirst |].
  exact (proj2 (proj2 (proj2
           (download_textfile_reload _ _ _ _ _ _ _ _ Hfirst find_url true)))
           eq_refl).
Defined.

(** ** [download_json] *)

(** X4.  When [download_json] downloads (no cached file, or a forced
    download), the server answers with an ok response that holds JSON and
    nothing keeps the call from writing the cache file, the call writes
    the document to the cache and then fails with [UnboundLocalError] on
    [data]: the branch binds [json_file], not [data].  The next call
    without forcing sends no request and returns what the cached text
    decodes to. *)
Theorem download_json_first_call E w url filename force verbose r j :
  file_at w (download_dir +:+ filename) = None ∨ force = true →
  http_get E (length (requests_of (log w))) url = Some r →
  ok r = true →
  json_loads E (body r) = Some j →
  writable w filename = true →
  let first := download_json url filename force verbose E w in
  first.1 = Raise (UnboundLocalError "data") ∧
  file_at first.2 (download_dir +:+ filename) = Some (json_dumps E j) ∧
  ∀ url' verbose',
    let second := download_json url' filename false verbose' E first.2 in
    requests_of (log second.2) = requests_of (log first.2) ∧
    cache second.2 = cache first.2 ∧
    second.1
    = match json_loads E (universal_newlines (json_dumps E j)) with
      | Some j' => Ok j'
      | None => Raise JSONDecodeError
      end.
Proof.
  intros Hfresh Hget Hok Hj Hdir%writable_has_directory. cbn zeta.
  unfold has_directory in Hdir.
  assert (download_json url filename force verbose E w
          = (Raise (UnboundLocalError "data"),
             World
               (Some (<[download_dir +:+ filename := json_dumps E j]>
                        (default ∅ (cache w))))
               (log w ++ events_fetch url filename (json_dumps E j) verbose)))
    as ->.
  { unfold download_json, json_decode, events_fetch. unfold_io.
    rewrite fresh_condition by done.
    destruct verbose; simpl;
      rewrite ?requests_of_app; simpl; rewrite ?app_nil_r, Hget; simpl;
      rewrite Hok; simpl; rewrite Hj; simpl; rewrite Hdir; simpl;
      by rewrite <- !app_assoc. }
  cbn [fst snd]. set (w1 := World _ _).
  assert (file_at w1 (download_dir +:+ filename) = Some (json_dumps E j))
    as Hfile by apply lookup_insert_eq.
  split_and!; [done | done |].
  intros url' verbose'.
  unfold download_json, json_decode. unfold_io.
  rewrite Hfile, bool_decide_eq_true_2 by eauto. simpl.
  unfold file_at in Hfile. simpl in Hfile. unfold file_at. simpl.
  rewrite Hfile. simpl.
  destruct (json_loads E (universal_newlines (json_dumps E j))); simpl;
    (split_and!; [| done | done]);
    rewrite !requests_of_app; simpl; by rewrite !app_nil_r.
Qed.

Lemma download_json_first_call_witness :
  let first :=
    download_json json_url "hsa:10458_json" false false
      (kegg decode_none) no_cache in
  writable no_cache "hsa:10458_json" = true ∧
  first.1 = Raise (UnboundLocalError "data") ∧
  (download_json json_url "hsa:10458_json" false false
     (kegg decode_none) first.2).1
  = Ok (JArray []).
Proof.
  destruct (download_json_first_call (kegg decode_none) no_cache json_url
              "hsa:10458_json" false false (Response true "[]") (JArray []))
    as (Hfirst & _ & Hsecond);
    [by left | by vm_compute | reflexivity | reflexivity | reflexivity |].
  split_and!; [reflexivity | exact Hfirst |].
  exact (proj2 (proj2 (Hsecond json_url false))).
Defined.

(** ** The listing commands *)

Lemma process_request_text_lengths
    fulltext want_descr itemlist descriptionlist :
  process_request_text fulltext want_descr
  = Ok (ItemsDescr itemlist descriptionlist) →
  length itemlist = length (splitlines fulltext) ∧
  length descriptionlist = length (splitlines fulltext).
Proof.
  unfold process_request_text. rewrite request_lines_fields.
  destruct (forallb _ _); [| done]. simpl.
  destruct want_descr; [| done]. intros [= <- <-].
  by rewrite !length_fmap.
Qed.

(** The length test after the parsing always succeeds. *)
Lemma parse_listing_run fulltext want_descriptions msg E w :
  parse_listing fulltext want_descriptions msg E w
  = (process_request_text fulltext want_descriptions, w).
Proof.
  unfold parse_listing. unfold_io.
  destruct (process_request_text fulltext want_descriptions)
    as [[items | items descrs] | e] eqn:Hp; [done | | done].
  apply process_request_text_lengths in Hp as [H1 H2].
  by rewrite bool_decide_eq_true_2 by congruence.
Qed.

Lemma download_textfile_api_error url filename force verbose :
  raises_only api_error (download_textfile url filename force verbose).
Proof.
  intros E w e H. apply download_textfile_raises in H.
  destruct H as [-> | [-> | [[-> Hdir] | ->]]]; try done.
  - by destruct (http_error _ _ _).
  - exists filename. split; [done | by eapply not_has_directory_slash].
Qed.

Lemma parse_listing_api_error fulltext want_descriptions msg :
  raises_only api_error (parse_listing fulltext want_descriptions msg).
Proof.
  intros E w e. rewrite parse_listing_run. simpl.
  by intros ->%process_request_text_raises.
Qed.

Lemma push_backslash_api_error stuff :
  raises_only api_error (push_backslash stuff).
Proof.
  destruct stuff; simpl; [apply raises_only_ret |].
  apply raises_only_bind;
    [apply raises_only_ask | intros; apply raises_only_ret].
Qed.

Lemma as_str_api_error v : raises_only api_error (as_str v).
Proof.
  destruct v; [apply raises_only_ret | by apply raises_only_raise].
Qed.

Lemma get_organism_codes_api_error : raises_only api_error get_organism_codes.
Proof.
  unfold get_organism_codes. apply raises_only_bind.
  - apply download_textfile_api_error.
  - intros text. apply raises_only_lift.
    by intros e ->%organism_lines_raises.
Qed.

Lemma keggapi_find_api_error database query option wd verbose force :
  raises_only api_error (keggapi_find database query option wd verbose force).
Proof.
  unfold keggapi_find.
  destruct (negb (str_in database db_categories));
    [by apply raises_only_raise |].
  destruct (_ && _); [by apply raises_only_raise |].
  apply raises_only_bind; [apply push_backslash_api_error | intros [q qurl]].
  apply raises_only_bind; [apply push_backslash_api_error | intros [o ourl]].
  apply raises_only_bind; [apply as_str_api_error | intros q'].
  apply raises_only_bind; [apply as_str_api_error | intros o'].
  apply raises_only_bind; [apply download_textfile_api_error | intros text].
  apply parse_listing_api_error.
Qed.

Lemma keggapi_list_api_error database option wd force :
  raises_only api_error (keggapi_list database option wd force).
Proof.
  unfold keggapi_list.
  apply raises_only_bind; [apply get_organism_codes_api_error | intros codes].
  destruct (negb (str_in database db_categories));
    [by apply raises_only_raise |].
  destruct (_ && _); [by apply raises_only_raise |].
  destruct (_ && _); [by apply raises_only_raise |].
  apply raises_only_bind; [apply push_backslash_api_error | intros [o ourl]].
  apply raises_only_bind; [apply as_str_api_error | intros o'].
  apply raises_only_bind; [apply download_textfile_api_error | intros text].
  apply parse_listing_api_error.
Qed.

Lemma api_error_internal e : api_error e → no_internal_error e.
Proof. by destruct e. Qed.

Lemma keggapi_link_api_error source target verbose force :
  raises_only api_error (keggapi_link source target verbose force).
Proof.
  unfold keggapi_link.
  destruct (negb (str_in target db_categories));
    [by apply raises_only_raise |].
  apply raises_only_bind; [apply download_textfile_api_error | intros text].
  apply raises_only_bind.
  - apply raises_only_lift. by intros e ->%process_request_text_raises.
  - intros [items | l1 l2];
      [by apply raises_only_raise | apply raises_only_ret].
Qed.

(** X5.  The length assertions of lines 326 and 379 never fail, whatever
    the arguments, the server and the cache: parsing gives one item and
    one description per line.  [keggapi_list], [keggapi_find] and
    [keggapi_link] raise no [AssertionError], and they read no local
    variable that is unbound. *)
Theorem listing_commands_errors E w :
  (∀ database option wd force e,
     (keggapi_list database option wd force E w).1 = Raise e →
     no_internal_error e) ∧
  (∀ database query option wd verbose force e,
     (keggapi_find database query option wd verbose force E w).1 = Raise e →
     no_internal_error e) ∧
  (∀ source target verbose force e,
     (keggapi_link source target verbose force E w).1 = Raise e →
     no_internal_error e) ∧
  (∀ fulltext itemlist descriptionlist,
     process_request_text fulltext true
     = Ok (ItemsDescr itemlist descriptionlist) →
     length itemlist = length descriptionlist).
Proof.
  split_and!.
  - intros database option wd force e H.
    apply api_error_internal. by eapply keggapi_list_api_error.
  - intros database query option wd verbose force e H.
    apply api_error_internal. by eapply keggapi_find_api_error.
  - intros source target verbose force e H.
    apply api_error_internal. by eapply keggapi_link_api_error.
  - intros fulltext itemlist descriptionlist
      [H1 H2]%process_request_text_lengths. congruence.
Qed.

Lemma listing_commands_errors_witness :
  (keggapi_link "a/b" "pathway" true false kegg_slash no_cache).1
  = Raise (FileNotFoundError (download_dir +:+ "pathway_a/b_link")) ∧
  no_internal_error (FileNotFoundError (download_dir +:+ "pathway_a/b_link")).
Proof.
  assert ((keggapi_link "a/b" "pathway" true false kegg_slash no_cache).1
          = Raise (FileNotFoundError (download_dir +:+ "pathway_a/b_link")))
    as Hfails by (by vm_compute).
  split; [exact Hfails |].
  exact (proj1 (proj2 (proj2 (listing_commands_errors kegg_slash no_cache)))
           _ _ _ _ _ Hfails).
Defined.

(** ** [get_organism_codes] *)

(** X6.  On the organism list that [download_textfile] obtains,
    [get_organism_codes] returns the second field of every line, in line
    order, when every line, stripped, has exactly four tab-separated
    fields, and raises [ValueError] as soon as one line has not. *)
Theorem get_organism_codes_fields E w text :
  text_obtained E w org_url org_filename false text →
  text ≠ chr LF →
  let lines := splitlines text in
  (Forall (λ line, S (count_tab (strip line)) = 4) lines →
   (get_organism_codes E w).1 = Ok (field 1 <$> lines)) ∧
  (¬ Forall (λ line, S (count_tab (strip line)) = 4) lines →
   (get_organism_codes E w).1 = Raise ValueError).
Proof.
  intros Hobtained Hne lines.
  destruct (download_textfile_obtained E w org_url org_filename false false
              text Hobtained Hne) as [w1 Hdl];
    [intros _; by apply has_directory_plain |].
  unfold get_organism_codes. rewrite bind_run, Hdl. unfold lift.
  cbn [fst]. fold lines. rewrite organism_lines_fields.
  split.
  - intros H%forallb_has_fields. by rewrite H.
  - intros H%forallb_has_fields_not. by rewrite H.
Qed.

Lemma get_organism_codes_fields_witness :
  text_obtained (kegg decode_none) no_cache org_url org_filename false
    organism_page ∧
  Forall (λ line, S (count_tab (strip line)) = 4) (splitlines organism_page) ∧
  (get_organism_codes (kegg decode_none) no_cache).1 = Ok ["hsa"].
Proof.
  assert (text_obtained (kegg decode_none) no_cache org_url org_filename
            false organism_page) as Hobtained.
  { apply (obtained_fetched _ _ _ _ _ (Response true organism_page));
      [by left | by vm_compute | reflexivity]. }
  assert (Forall (λ line, S (count_tab (strip line)) = 4)
            (splitlines organism_page)) as Hlines by decided.
  assert (organism_page ≠ chr LF) as Hne by decided.
  split_and!; [exact Hobtained | exact Hlines |].
  exact (proj1 (get_organism_codes_fields _ _ _ Hobtained Hne) Hlines).
Defined.

Lemma category_not_organism database rest :
  database ∈ db_categories →
  database +:+ rest ≠ "organism" ∧
  ∀ rest', database +:+ "_" +:+ rest' ≠ org_filename.
Proof.
  intros Hdb. unfold db_categories in Hdb.
  repeat (apply elem_of_cons in Hdb as [-> | Hdb]; [by split |]).
  by apply elem_of_nil in Hdb.
Qed.

(** X7.  Once the organism list is in the cache, [keggapi_list] never
    requests it again and never changes its file, whatever its arguments:
    [force_download] reaches the listing only, and [get_organism_codes]
    never forces. *)
Theorem keggapi_list_keeps_organism_list
    E w content database option wd force :
  file_at w org_path = Some content →
  let out := keggapi_list database option wd force E w in
  file_at out.2 org_path = Some content ∧
  ∃ new,
    requests_of (log out.2) = requests_of (log w) ++ new ∧ org_url ∉ new.
Proof.
  intros Hfile. cbn zeta.
  set (P := λ w' : world,
         file_at w' org_path = Some content ∧
         ∃ new, requests_of (log w') = requests_of (log w) ++ new ∧
                org_url ∉ new).
  change (P (keggapi_list database option wd force E w).2).
  rewrite keggapi_list_start.
  unfold get_organism_codes. rewrite bind_run.
  rewrite (download_textfile_cached _ _ _ _ _ content) by done.
  set (wa := World (cache w) _).
  assert (requests_of (log wa) = requests_of (log w)) as Hra
    by apply requests_of_events_cached.
  assert (P wa) as Hstop.
  { split; [done |]. exists []. rewrite app_nil_r.
    split; [done | apply not_elem_of_nil]. }
  destruct (str_eq _ _); [done |].
  unfold lift.
  destruct (organism_lines _ _) as [org_codes | e]; [| done].
  destruct (list_rejects org_codes database option) eqn:Hrej; [done |].
  assert (database ∈ db_categories) as Hdb.
  { unfold list_rejects in Hrej.
    apply orb_false_iff in Hrej as [[Hdb%negb_false_iff _]%orb_false_iff _].
    by apply str_in_true. }
  rewrite bind_run.
  assert (∃ o ourl, push_backslash option E wa = (Ok (o, ourl), wa))
    as (o & ourl & ->).
  { destruct option; simpl; unfold_io; eauto. }
  rewrite bind_run. destruct o as [name|]; [| done].
  cbn [as_str]. unfold ret at 1. rewrite bind_run.
  pose proof (download_textfile_frame E wa
                ("http://rest.kegg.jp/list/" +:+ database +:+ ourl)
                (database +:+ "_" +:+ name +:+ "_list") force true)
    as [Hreq Hframe].
  assert (P (download_textfile
               ("http://rest.kegg.jp/list/" +:+ database +:+ ourl)
               (database +:+ "_" +:+ name +:+ "_list") force true E wa).2)
    as Hafter.
  { split.
    - rewrite Hframe; [done |]. unfold org_path. intros H.
      apply (inj (String.app _)) in H.
      by destruct (category_not_organism database "" Hdb) as [_ Hn];
        apply (Hn (name +:+ "_list")).
    - destruct Hreq as [-> | ->]; rewrite Hra.
      + exists []. rewrite app_nil_r. split; [done | apply not_elem_of_nil].
      + eexists. split; [done |].
        intros Hin%list_elem_of_singleton. unfold org_url in Hin.
        apply (inj (String.app "http://rest.kegg.jp/list/")) in Hin.
        by destruct (category_not_organism database ourl Hdb) as [Hn _]. }
  destruct (download_textfile _ _ force true E wa) as [[text | e] wc];
    [| done].
  by rewrite parse_listing_run.
Qed.

Lemma keggapi_list_keeps_organism_list_witness :
  let out :=
    keggapi_list "brite" (Some "xl") false true
      (kegg decode_none) organisms_cached in
  file_at organisms_cached org_path = Some organism_page ∧
  file_at out.2 org_path = Some organism_page ∧
  requests_of (log out.2) = [xl_url].
Proof.
  assert (file_at organisms_cached org_path = Some organism_page) as Hfile
    by reflexivity.
  split_and!; [exact Hfile | | by vm_compute].
  exact (proj1 (keggapi_list_keeps_organism_list (kegg decode_none)
                  organisms_cached organism_page "brite" (Some "xl")
                  false true Hfile)).
Defined.

(** ** [keggapi_link] and [kegg_url] *)

(** X8.  For a target in the category set and every source with which
    nothing keeps the call from writing the cache file target_source_link,
    [keggapi_link] works on the text of the url link/target/source: when
    every line, stripped, holds one tab it returns the parts before the tab
    and the parts after it as two lists in line order, and it raises
    [ValueError] otherwise.  The source is checked against no
    vocabulary. *)
Theorem keggapi_link_columns E w source target verbose force text :
  target ∈ db_categories →
  text_obtained E w (link_url source target)
    (target +:+ "_" +:+ source +:+ "_link") force text →
  text ≠ chr LF →
  (file_at w (download_dir +:+ target +:+ "_" +:+ source +:+ "_link") = None
   ∨ force = true →
   writable w (target +:+ "_" +:+ source +:+ "_link") = true) →
  let lines := splitlines text in
  (Forall (λ line, S (count_tab (strip line)) = 2) lines →
   (keggapi_link source target verbose force E w).1
   = Ok (field 0 <$> lines, field 1 <$> lines)) ∧
  (¬ Forall (λ line, S (count_tab (strip line)) = 2) lines →
   (keggapi_link source target verbose force E w).1 = Raise ValueError).
Proof.
  intros Htarget%str_in_true Hobtained Hne Hdir lines.
  destruct (download_textfile_obtained E w _ _ force true
              text Hobtained Hne) as [w1 Hdl];
    [intros Hfresh; by apply writable_has_directory, Hdir |].
  unfold keggapi_link. rewrite Htarget. cbn [negb].
  fold (link_url source target). rewrite bind_run, Hdl, bind_run.
  unfold lift at 1, process_request_text. fold lines.
  rewrite request_lines_fields.
  split.
  - intros H%forallb_has_fields. by rewrite H.
  - intros H%forallb_has_fields_not. by rewrite H.
Qed.

Lemma keggapi_link_columns_witness :
  ("pathway" ∈ db_categories) ∧
  text_obtained kegg_more no_cache (link_url "hsa" "pathway")
    "pathway_hsa_link" false link_page ∧
  writable no_cache "pathway_hsa_link" = true ∧
  (keggapi_link "hsa" "pathway" true false kegg_more no_cache).1
  = Ok (["hsa:10458"; "hsa:10458"], ["path:hsa04520"; "path:hsa04810"]).
Proof.
  assert ("pathway" ∈ db_categories) as Htarget by decided.
  assert (writable no_cache "pathway_hsa_link" = true) as Hdir
    by reflexivity.
  assert (text_obtained kegg_more no_cache (link_url "hsa" "pathway")
            "pathway_hsa_link" false link_page) as Hobtained.
  { apply (obtained_fetched _ _ _ _ _ (Response true link_page));
      [by left | by vm_compute | reflexivity]. }
  assert (link_page ≠ chr LF) as Hne by decided.
  assert (Forall (λ line, S (count_tab (strip line)) = 2)
            (splitlines link_page)) as Hlines by decided.
  split_and!; [exact Htarget | exact Hobtained | exact Hdir |].
  exact (proj1 (keggapi_link_columns kegg_more no_cache "hsa" "pathway"
                  true false link_page Htarget Hobtained Hne (λ _, Hdir))
           Hlines).
Defined.

(** Reading again what a successful call cached gives a text with the same
    lines, and no request. *)
Lemma download_textfile_again E w1 url filename verbose text content wd l :
  file_at w1 (download_dir +:+ filename) = Some content →
  universal_newlines content = universal_newlines text →
  process_request_text text wd = Ok l →
  download_textfile url filename false verbose E w1
  = (Ok (universal_newlines text),
     World (cache w1) (log w1 ++ events_cached filename verbose)) ∧
  ∀ wd',
    process_request_text (universal_newlines text) wd'
    = process_request_text text wd'.
Proof.
  intros Hfile Hsame Hparse.
  assert (∀ wd', process_request_text (universal_newlines text) wd'
                 = process_request_text text wd') as Hsplit.
  { intros wd'. unfold process_request_text.
    by rewrite splitlines_universal_newlines. }
  split; [| done].
  rewrite (download_textfile_cached _ _ _ _ _ content) by done.
  rewrite Hsame. destruct (str_eq _ _) eqn:Heq; [| done].
  apply str_eq_true in Heq. specialize (Hsplit wd).
  rewrite Heq, Hparse in Hsplit. by destruct wd.
Qed.

(** X9.  After a call of [keggapi_link] that returned its two lists, the
    same call without forcing returns the same lists again, sends no request
    and leaves the cache as it is, also when the text holds carriage
    returns, which the cached file gives back as line feeds. *)
Theorem keggapi_link_again E w source target verbose force links w1 :
  keggapi_link source target verbose force E w = (Ok links, w1) →
  ∀ verbose',
    let again := keggapi_link source target verbose' false E w1 in
    again.1 = Ok links ∧
    requests_of (log again.2) = requests_of (log w1) ∧
    cache again.2 = cache w1.
Proof.
  unfold keggapi_link.
  destruct (negb (str_in target db_categories)); [done |].
  rewrite bind_run.
  destruct (download_textfile _ _ force true E w) as [[text | e] wa] eqn:Hdl;
    [| done].
  rewrite bind_run. unfold lift at 1.
  destruct (process_request_text text true) as [[items | l1 l2] | e] eqn:Hp;
    try done.
  intros [= <- <-] verbose'. cbn zeta.
  apply download_textfile_ok in Hdl as (_ & content & Hfile & Hsame).
  destruct (download_textfile_again E wa
              ("http://rest.kegg.jp/link/" +:+ target +:+ "/" +:+ source)
              (target +:+ "_" +:+ source +:+ "_link") true text content
              true _ Hfile Hsame Hp) as [Hagain Hsplit].
  rewrite bind_run, Hagain, bind_run. unfold lift at 1.
  rewrite Hsplit, Hp. simpl.
  split_and!; [done | | done].
  rewrite requests_of_app. simpl. by rewrite app_nil_r.
Qed.

Lemma keggapi_link_again_witness :
  let first := keggapi_link "hsa" "pathway" true false kegg_more no_cache in
  first
  = (Ok (["hsa:10458"; "hsa:10458"], ["path:hsa04520"; "path:hsa04810"]),
     first.2) ∧
  (keggapi_link "hsa" "pathway" true false kegg_more first.2).1
  = Ok (["hsa:10458"; "hsa:10458"], ["path:hsa04520"; "path:hsa04810"]).
Proof.
  intros first.
  assert (first
          = (Ok (["hsa:10458"; "hsa:10458"],
                 ["path:hsa04520"; "path:hsa04810"]), first.2)) as Hfirst
    by (by vm_compute).
  subst first. split; [exact Hfirst |].
  exact (proj1 (keggapi_link_again _ _ _ _ _ _ _ _ Hfirst true)).
Defined.

(** X11.  [kegg_url] returns the url link/target/source exactly when both
    keys are in the category set and differ; it raises [KEGGKeyError] on
    the target when the target is unknown, and on the source when the
    source is unknown or equal to the target.  The url it returns is the
    one that [keggapi_link] requests for the same pair; [keggapi_link]
    itself raises no [KEGGKeyError] as soon as the target is known. *)
Theorem kegg_url_agrees target_db source_db :
  (target_db ∈ db_categories → source_db ∈ db_categories →
   target_db ≠ source_db →
   kegg_url target_db source_db = Ok (link_url source_db target_db)) ∧
  (target_db ∉ db_categories →
   kegg_url target_db source_db = Raise (KEGGKeyError target_db)) ∧
  (target_db ∈ db_categories →
   source_db ∉ db_categories ∨ target_db = source_db →
   kegg_url target_db source_db = Raise (KEGGKeyError source_db)) ∧
  (∀ url, kegg_url target_db source_db = Ok url →
   ∀ E w verbose,
     requests_of (log (keggapi_link source_db target_db verbose true E w).2)
     = requests_of (log w) ++ [url]) ∧
  (target_db ∈ db_categories →
   ∀ E w verbose force key,
     (keggapi_link source_db target_db verbose force E w).1
     ≠ Raise (KEGGKeyError key)).
Proof.
  unfold kegg_url. split_and!.
  - intros ->%str_in_true ->%str_in_true Hne. simpl. unfold str_eq.
    by rewrite (bool_decide_eq_false_2 _ Hne).
  - by intros ->%str_in_false.
  - intros ->%str_in_true [->%str_in_false | <-]; [done |]. simpl.
    destruct (negb (str_in target_db db_categories)); [done |].
    unfold str_eq. by rewrite bool_decide_eq_true_2.
  - intros url Hurl E w verbose.
    destruct (str_in target_db db_categories) eqn:Htarget; [| done].
    simpl in Hurl.
    destruct (negb (str_in source_db db_categories)); [done |].
    destruct (str_eq target_db source_db); [done |].
    injection Hurl as <-.
    unfold keggapi_link. rewrite Htarget. cbn [negb]. rewrite bind_run.
    pose proof (download_textfile_force_requests E w
                  ("http://rest.kegg.jp/link/" +:+ target_db +:+ "/"
                   +:+ source_db)
                  (target_db +:+ "_" +:+ source_db +:+ "_link") true) as Hreq.
    destruct (download_textfile _ _ true true E w) as [[text | e] w1];
      [| done].
    rewrite bind_run. unfold lift at 1.
    destruct (process_request_text text true) as [[items | l1 l2] | e]; done.
  - intros Htarget%str_in_true E w verbose force key.
    unfold keggapi_link. rewrite Htarget. cbn [negb].
    apply not_key_error_neq. intros e. revert E w e.
    apply raises_only_bind; [apply download_textfile_raises_only |].
    intros text. apply raises_only_bind.
    + apply raises_only_lift. by intros e ->%process_request_text_raises.
    + intros [items | l1 l2];
        [by apply raises_only_raise | apply raises_only_ret].
Qed.

Lemma kegg_url_agrees_witness :
  ("hsa" ∈ db_categories) ∧ ("disease" ∈ db_categories) ∧
  kegg_url "hsa" "disease" = Ok "http://rest.kegg.jp/link/hsa/disease" ∧
  kegg_url "hsa" "hsa" = Raise (KEGGKeyError "hsa").
Proof.
  assert ("hsa" ∈ db_categories) as Hhsa by decided.
  assert ("disease" ∈ db_categories) as Hdisease by decided.
  split_and!; [exact Hhsa | exact Hdisease | |].
  - apply (proj1 (kegg_url_agrees "hsa" "disease") Hhsa Hdisease).
    discriminate.
  - exact (proj1 (proj2 (proj2 (kegg_url_agrees "hsa" "hsa")))
             Hhsa (or_intror eq_refl)).
Defined.

(** ** [keggapi_find], again *)

(** [keggapi_find] on accepted arguments: the download, then the
    parsing. *)
Lemma keggapi_find_run E w database query option wd verbose force :
  find_rejects database (Some option) = false →
  keggapi_find database query (Some option) wd verbose force E w
  = match
      download_textfile
        ("http://rest.kegg.jp/find/" +:+ database +:+ ("/" +:+ query)
         +:+ "/" +:+ option)
        (database +:+ "_" +:+ query +:+ "_" +:+ option) force verbose E w
    with
    | (Ok text, w1) => (process_request_text text wd, w1)
    | (Raise e, w1) => (Raise e, w1)
    end.
Proof.
  intros Hvalid. unfold keggapi_find.
  unfold find_rejects in Hvalid. rewrite str_in_pair in Hvalid.
  apply orb_false_iff in Hvalid as [-> ->].
  cbv beta iota delta [bind ret as_str push_backslash].
  destruct (download_textfile _ _ force verbose E w) as [[text | e] w1];
    [| done].
  apply parse_listing_run.
Qed.

(** X10.  [keggapi_find] names its cache file database_query_option.
    After a call that returned a listing, every call without forcing whose
    query and option, joined by an underscore, give the same name returns
    that listing again and sends no request: the same query, and also
    another query whose url differs (query "a_b" with option "c", then
    query "a" with option "b_c"). *)
Theorem keggapi_find_shared_cache
    E w database query option query' option' wd verbose force found w1 :
  query +:+ "_" +:+ option = query' +:+ "_" +:+ option' →
  find_rejects database (Some option') = false →
  keggapi_find database query (Some option) wd verbose force E w
  = (Ok found, w1) →
  ∀ verbose',
    let again :=
      keggapi_find database query' (Some option') wd verbose' false E w1 in
    again.1 = Ok found ∧
    requests_of (log again.2) = requests_of (log w1) ∧
    cache again.2 = cache w1.
Proof.
  intros Hname Hvalid' Hfirst verbose'. cbn zeta.
  destruct (find_rejects database (Some option)) eqn:Hvalid.
  { by rewrite keggapi_find_rejects in Hfirst. }
  rewrite keggapi_find_run in Hfirst by done.
  destruct (download_textfile _ _ force verbose E w) as [[text | e] wa] eqn:Hdl;
    [| done].
  injection Hfirst as Hp <-.
  apply download_textfile_ok in Hdl as (_ & content & Hfile & Hsame).
  rewrite Hname in Hfile.
  destruct (download_textfile_again E wa
              ("http://rest.kegg.jp/find/" +:+ database +:+
               ("/" +:+ query') +:+ "/" +:+ option')
              (database +:+ "_" +:+ query' +:+ "_" +:+ option') verbose'
              text content wd _ Hfile Hsame Hp) as [Hagain Hsplit].
  rewrite keggapi_find_run, Hagain, Hsplit, Hp by done. simpl.
  split_and!; [done | | done].
  rewrite requests_of_app. destruct verbose'; simpl; by rewrite app_nil_r.
Qed.

Lemma keggapi_find_shared_cache_witness :
  let first :=
    keggapi_find "pathway" "a_b" (Some "c") false false false
      kegg_more no_cache in
  "a_b" +:+ "_" +:+ "c" = "a" +:+ "_" +:+ "b_c" ∧
  first = (Ok (Items ["a"]), first.2) ∧
  http_get kegg_more 1 "http://rest.kegg.jp/find/pathway/a/b_c" = None ∧
  (keggapi_find "pathway" "a" (Some "b_c") false false false
     kegg_more first.2).1
  = Ok (Items ["a"]).
Proof.
  intros first.
  assert (first = (Ok (Items ["a"]), first.2)) as Hfirst by (by vm_compute).
  subst first. split_and!; [reflexivity | exact Hfirst | by vm_compute |].
  exact (proj1 (keggapi_find_shared_cache kegg_more no_cache "pathway"
                  "a_b" "c" "a" "b_c" false false false _ _
                  eq_refl eq_refl Hfirst false)).
Defined.

(** ** [get_infos] *)

(** X12.  For an entry whose text is made of lines ended by line feeds,
    when nothing keeps the call from writing the cache file
    item_description, [get_infos] without
    [verbose] prints the header and then the second, third and fourth line
    of the entry, joined by line feeds: the first line and everything after
    the fourth are left out.  With [verbose] it prints the whole text.  It
    never forces the download. *)
Theorem get_infos_short E w item lines :
  Forall (λ line, no_break line = true) lines →
  text_obtained E w ("http://rest.kegg.jp/get/" +:+ item)
    (item +:+ "_description") false (unlines lines) →
  unlines lines ≠ chr LF →
  (file_at w (download_dir +:+ item +:+ "_description") = None →
   writable w (item +:+ "_description") = true) →
  ∃ w1,
    download_textfile ("http://rest.kegg.jp/get/" +:+ item)
      (item +:+ "_description") false false E w
    = (Ok (unlines lines), w1) ∧
    get_infos item false E w
    = (Ok tt,
       World (cache w1)
         (log w1 ++
          [Print ("Infos on " +:+ item +:+ " from KEGG:" +:+ chr LF);
           Print (str_join (chr LF) (take 3 (drop 1 lines)))])) ∧
    get_infos item true E w
    = (Ok tt,
       World (cache w1)
         (log w1 ++
          [Print ("Infos on " +:+ item +:+ " from KEGG:" +:+ chr LF);
           Print (unlines lines)])).
Proof.
  intros Hlines Hobtained Hne Hdir.
  destruct (download_textfile_obtained E w _ _ false false _ Hobtained Hne)
    as [w1 Hdl];
    [intros [Hfresh | [=]]; by apply writable_has_directory, Hdir |].
  exists w1. split; [done |].
  unfold get_infos. rewrite !bind_run, Hdl. unfold_io. simpl.
  rewrite splitlines_unlines by done. by rewrite <- !app_assoc.
Qed.

Lemma get_infos_short_witness :
  Forall (λ line, no_break line = true) entry_lines ∧
  text_obtained kegg_more no_cache entry_url "hsa:10458_description" false
    (unlines entry_lines) ∧
  writable no_cache "hsa:10458_description" = true ∧
  ∃ w1,
    get_infos "hsa:10458" false kegg_more no_cache
    = (Ok tt,
       World (cache w1)
         (log w1 ++
          [Print ("Infos on hsa:10458 from KEGG:" +:+ chr LF);
           Print ("NAME        BAIAP2" +:+ chr LF +:+ "ORTHOLOGY   K05627"
                  +:+ chr LF +:+ "ORGANISM    hsa")])).
Proof.
  assert (Forall (λ line, no_break line = true) entry_lines) as Hlines
    by decided.
  assert (text_obtained kegg_more no_cache entry_url "hsa:10458_description"
            false (unlines entry_lines)) as Hobtained.
  { apply (obtained_fetched _ _ _ _ _ (Response true (unlines entry_lines)));
      [by left | by vm_compute | reflexivity]. }
  assert (unlines entry_lines ≠ chr LF) as Hne by decided.
  assert (writable no_cache "hsa:10458_description" = true) as Hdir
    by reflexivity.
  split_and!; [exact Hlines | exact Hobtained | exact Hdir |].
  destruct (get_infos_short kegg_more no_cache "hsa:10458" entry_lines
              Hlines Hobtained Hne (λ _, Hdir)) as (w1 & _ & Hshort & _).
  exists w1. exact Hshort.
Defined.

(** ** [download_pic], again *)

Lemma requests_of_events_request w url filename verbose :
  requests_of (events_request w url filename verbose) = [url].
Proof.
  unfold events_request.
  rewrite requests_of_app, requests_of_events_stat. by destruct verbose.
Qed.

Lemma download_or_cached w filename force :
  (file_at w (variant_path filename "gif") = None ∧
   file_at w (variant_path filename "png") = None ∨ force = true) ∨
  ((is_Some (file_at w (variant_path filename "gif")) ∨
    is_Some (file_at w (variant_path filename "png"))) ∧ force = false).
Proof.
  destruct force; [by left; right |].
  destruct (file_at w (variant_path filename "gif")) eqn:Hgif; [eauto |].
  destruct (file_at w (variant_path filename "png")) eqn:Hpng; eauto.
Qed.

Lemma stored_result_raises w files url filename verbose r e :
  (stored_result w files url filename verbose r).1 = Raise e →
  e = AssertionError format_msg ∨
  e = FileNotFoundError tmp_path ∧
  directory files (directory_of (download_dir +:+ filename)) = false.
Proof.
  unfold stored_result. destruct (sniff (body r)) as [fmt|];
    [destruct (str_in fmt ["gif"; "png"]);
     [destruct (directory files _) eqn:Hdir |] |];
    simpl; [done | | |]; intros [= <-]; auto.
Qed.

Lemma tmp_path_not_variant filename fmt :
  fmt ∈ ["gif"; "png"] → tmp_path ≠ variant_path filename fmt.
Proof.
  intros Hfmt H. unfold tmp_path, get_fname_path, variant_path in H.
  apply (inj (String.app _)) in H.
  assert (fmt = "gif" ∨ fmt = "png") as [-> | ->].
  { apply elem_of_cons in Hfmt as [-> | Hfmt]; [by left |].
    apply elem_of_cons in Hfmt as [-> | []%elem_of_nil]. by right. }
  all: do 7 (destruct filename as [|? filename]; [discriminate H |];
             apply (f_equal (λ s, match s with String _ t => t | "" => "" end))
               in H; simpl in H).
  all: by destruct filename.
Qed.

Lemma variant_path_in_cache (files : gmap string string) filename fmt content
    target :
  fmt ∈ ["gif"; "png"] → target ≠ variant_path filename fmt →
  <[target := content]> (delete tmp_path (<[tmp_path := content]> files))
    !! variant_path filename fmt
  = files !! variant_path filename fmt.
Proof.
  intros Hfmt Hne.
  rewrite lookup_insert_ne by done.
  rewrite lookup_delete_ne by by apply tmp_path_not_variant.
  rewrite lookup_insert_ne by by apply tmp_path_not_variant. done.
Qed.

(** Every way [download_pic] can fail. *)
Lemma download_pic_failures E w url filename force verbose e :
  (download_pic url filename force verbose E w).1 = Raise e →
  e = request_exn (http_error E (length (requests_of (log w))) url) url ∨
  e = FileNotFoundError tmp_path
    ∧ (cache w = None ∨ has_directory w filename = false) ∨
  e = AssertionError format_msg ∨ e = UnboundLocalError "img".
Proof.
  destruct (download_or_cached w filename force) as [Hdl | [Hsome ->]].
  - rewrite download_pic_download by done.
    destruct (http_get E (length (requests_of (log w))) url) as [r|];
      [destruct (cache w) as [files|] eqn:Hcache |].
    + intros [-> | [-> Hdir]]%stored_result_raises; [auto |].
      right. left. split; [done |]. right. unfold has_directory.
      by rewrite Hcache.
    + intros [= <-]. auto.
    + intros [= <-]. auto.
  - rewrite download_pic_cached by done. unfold cached_result. cbn [fst].
    destruct (readable E w (variant_path filename "png")); [done |].
    destruct (readable E w (variant_path filename "gif")); [done |].
    intros [= <-]. auto.
Qed.

(** X13.  [download_pic] never raises [KEGGOnlineError]: [request_image]
    does not look at the status of the response, and the body of an error
    response is stored and sniffed like any other.  [download_textfile]
    raises [KEGGOnlineError] for such a response as soon as it
    downloads. *)
Theorem download_pic_raises E w url filename force verbose :
  (∀ key,
     (download_pic url filename force verbose E w).1
     ≠ Raise (KEGGOnlineError key)) ∧
  (∀ r name,
     http_get E (length (requests_of (log w))) url = Some r →
     ok r = false →
     file_at w (download_dir +:+ name) = None ∨ force = true →
     (download_textfile url name force verbose E w).1
     = Raise (KEGGOnlineError url)).
Proof.
  split.
  - intros key H. apply download_pic_failures in H.
    destruct H as [H | [[H _] | [H | H]]]; try done.
    by destruct (http_error _ _ _).
  - intros r name Hget Hok Hfresh.
    by rewrite (download_textfile_not_ok _ _ _ _ _ _ r).
Qed.

Lemma download_pic_raises_witness :
  http_get kegg_down 0 image_url = Some (Response false "") ∧
  (download_pic image_url "hsa05130_image" false false
     kegg_down empty_cache).1
  = Raise (AssertionError format_msg) ∧
  (download_textfile image_url "hsa05130_image" false false
     kegg_down empty_cache).1
  = Raise (KEGGOnlineError image_url).
Proof.
  assert (http_get kegg_down 0 image_url = Some (Response false ""))
    as Hget by reflexivity.
  split_and!; [exact Hget | by vm_compute |].
  exact (proj2 (download_pic_raises kegg_down empty_cache image_url
                  "hsa05130_image" false false)
           _ "hsa05130_image" Hget eq_refl (or_introl eq_refl)).
Defined.

(** X14.  When the cache directory does not exist and the server answers,
    [download_pic] fails with [FileNotFoundError] on tmp_img after it has
    sent the request, and creates nothing: unlike [download_textfile] and
    [download_json] it calls no [mkdir]. *)
Theorem download_pic_no_directory E w url filename force verbose r :
  cache w = None →
  http_get E (length (requests_of (log w))) url = Some r →
  let out := download_pic url filename force verbose E w in
  out.1 = Raise (FileNotFoundError tmp_path) ∧
  cache out.2 = None ∧
  requests_of (log out.2) = requests_of (log w) ++ [url].
Proof.
  intros Hcache Hget. cbn zeta.
  rewrite download_pic_download, Hget, Hcache.
  - cbn [fst snd log cache]. split_and!; [done | done |].
    by rewrite app_assoc, !requests_of_app, requests_of_events_request,
      app_nil_r.
  - left. unfold file_at. by rewrite Hcache.
Qed.

Lemma download_pic_no_directory_witness :
  cache no_cache = None ∧
  (download_pic image_url "hsa05130_image" false false
     (kegg decode_png) no_cache).1
  = Raise (FileNotFoundError tmp_path).
Proof.
  split; [reflexivity |].
  refine (proj1 (download_pic_no_directory (kegg decode_png) no_cache
                   image_url "hsa05130_image" false false
                   (Response true png_head) eq_refl _)).
  by vm_compute.
Defined.

(** X15.  When the bytes that [download_pic] downloads sniff neither as
    GIF nor as PNG, the call fails with [AssertionError] and cleans nothing
    up: the bytes stay in the cache as tmp_img, and the cached variants of
    the filename are as they were. *)
Theorem download_pic_rejected_stays E w files url filename force verbose r :
  cache w = Some files →
  files !! variant_path filename "gif" = None ∧
  files !! variant_path filename "png" = None ∨ force = true →
  http_get E (length (requests_of (log w))) url = Some r →
  sniff (body r) ≠ Some "gif" → sniff (body r) ≠ Some "png" →
  let out := download_pic url filename force verbose E w in
  out.1 = Raise (AssertionError format_msg) ∧
  file_at out.2 tmp_path = Some (body r) ∧
  ∀ fmt, fmt ∈ ["gif"; "png"] →
    file_at out.2 (variant_path filename fmt)
    = file_at w (variant_path filename fmt).
Proof.
  intros Hcache Hbranch Hget Hgif Hpng. cbn zeta.
  rewrite download_pic_download, Hget, Hcache
    by (unfold file_at; by rewrite Hcache).
  unfold stored_result.
  assert (∀ fmt, sniff (body r) = Some fmt → str_in fmt ["gif"; "png"] = false)
    as Hother.
  { intros fmt Hfmt. destruct (str_in fmt ["gif"; "png"]) eqn:Hin; [| done].
    rewrite str_in_pair in Hin.
    apply orb_true_iff in Hin as [->%str_eq_true | ->%str_eq_true]; done. }
  assert (∀ l,
    file_at (World (Some (<[tmp_path := body r]> files)) l) tmp_path
      = Some (body r) ∧
    ∀ fmt, fmt ∈ ["gif"; "png"] →
      file_at (World (Some (<[tmp_path := body r]> files)) l)
        (variant_path filename fmt)
      = file_at w (variant_path filename fmt)) as Hworld.
  { intros l. unfold file_at. rewrite Hcache. simpl. split.
    - apply lookup_insert_eq.
    - intros fmt Hfmt. apply lookup_insert_ne. by apply tmp_path_not_variant. }
  destruct (sniff (body r)) as [fmt|] eqn:Hsniff.
  - rewrite (Hother fmt eq_refl). cbn [fst snd]. split; [done | apply Hworld].
  - cbn [fst snd]. split; [done | apply Hworld].
Qed.

Lemma download_pic_rejected_stays_witness :
  let out :=
    download_pic org_url "organisms" false false
      (kegg decode_none) empty_cache in
  sniff organism_page = None ∧
  out.1 = Raise (AssertionError format_msg) ∧
  file_at out.2 tmp_path = Some organism_page.
Proof.
  assert (sniff organism_page = None) as Hsniff by reflexivity.
  destruct (download_pic_rejected_stays (kegg decode_none) empty_cache ∅
              org_url "organisms" false false (Response true organism_page))
    as (Hfails & Htmp & _);
    [reflexivity | left; split; apply lookup_empty | by vm_compute
    | decided | decided |].
  split_and!; [exact Hsniff | exact Hfails | exact Htmp].
Defined.

(** X16.  In the branch of [download_pic] that reads the cache, the PNG
    variant is read last and wins: when it can be read its raster is
    returned, whatever the GIF variant holds; the raster of the GIF variant
    is returned only when the PNG variant cannot be read. *)
Theorem download_pic_prefers_png E w url filename verbose a :
  (readable E w (variant_path filename "png") = Some a →
   (download_pic url filename false verbose E w).1 = Ok (Raster a)) ∧
  (readable E w (variant_path filename "png") = None →
   readable E w (variant_path filename "gif") = Some a →
   (download_pic url filename false verbose E w).1 = Ok (Raster a)).
Proof.
  split.
  - intros Hpng. rewrite download_pic_cached.
    + unfold cached_result. by rewrite Hpng.
    + right. unfold readable in Hpng.
      by destruct (file_at w (variant_path filename "png")).
  - intros Hpng Hgif. rewrite download_pic_cached.
    + unfold cached_result. by rewrite Hpng, Hgif.
    + left. unfold readable in Hgif.
      by destruct (file_at w (variant_path filename "gif")).
Qed.

Lemma download_pic_prefers_png_witness :
  readable kegg_more both_cached (variant_path "hsa04520_image" "gif")
  = Some [[1%N]] ∧
  readable kegg_more both_cached (variant_path "hsa04520_image" "png")
  = Some [[0%N]] ∧
  (download_pic gif_url "hsa04520_image" false false
     kegg_more both_cached).1
  = Ok (Raster [[0%N]]).
Proof.
  assert (readable kegg_more both_cached
            (variant_path "hsa04520_image" "png") = Some [[0%N]]) as Hpng
    by (by vm_compute).
  split_and!; [by vm_compute | exact Hpng |].
  exact (proj1 (download_pic_prefers_png kegg_more both_cached gif_url
                  "hsa04520_image" false [[0%N]]) Hpng).
Defined.

(** X17.  A forced download whose bytes sniff as GIF, while a PNG variant
    of the filename is cached, stores the new bytes as the GIF variant and
    leaves the PNG variant in place; the calls that follow without forcing
    keep returning the raster of the old PNG variant. *)
Theorem download_pic_forced_other_format
    E w files url filename verbose r old a :
  cache w = Some files →
  files !! variant_path filename "png" = Some old →
  http_get E (length (requests_of (log w))) url = Some r →
  sniff (body r) = Some "gif" →
  imread_decode E old = Some a →
  let first := download_pic url filename true verbose E w in
  first.1 = Ok (RawStream r) ∧
  file_at first.2 (variant_path filename "gif") = Some (body r) ∧
  file_at first.2 (variant_path filename "png") = Some old ∧
  ∀ url' verbose',
    (download_pic url' filename false verbose' E first.2).1 = Ok (Raster a).
Proof.
  intros Hcache Hold Hget Hsniff Hdecode. cbn zeta.
  rewrite download_pic_download, Hget, Hcache by by right.
  unfold stored_result. rewrite Hsniff.
  change (str_in "gif" ["gif"; "png"]) with true. cbn iota.
  assert (directory files (directory_of (download_dir +:+ filename)) = true)
    as ->.
  { rewrite <- (directory_of_variant_path filename "png") by done.
    by eapply directory_file. }
  cbn [fst snd].
  set (w1 := World _ _).
  assert (file_at w1 (variant_path filename "gif") = Some (body r)) as Hgif
    by apply lookup_insert_eq.
  assert (file_at w1 (variant_path filename "png") = Some old) as Hpng.
  { unfold file_at, w1. cbn [cache].
    rewrite variant_path_in_cache; [done | | apply variant_path_differ].
    apply elem_of_cons. right. apply elem_of_cons. by left. }
  split_and!; [done | done | done |].
  intros url' verbose'. rewrite download_pic_cached by eauto.
  unfold cached_result, readable. rewrite Hpng. cbn [fst mbind option_bind].
  by rewrite Hdecode.
Qed.

Lemma download_pic_forced_other_format_witness :
  let first :=
    download_pic gif_url "hsa04520_image" true false kegg_more png_cached in
  sniff gif_head = Some "gif" ∧
  first.1 = Ok (RawStream (Response true gif_head)) ∧
  (download_pic gif_url "hsa04520_image" false false kegg_more first.2).1
  = Ok (Raster [[0%N]]).
Proof.
  assert (sniff gif_head = Some "gif") as Hsniff by reflexivity.
  destruct (download_pic_forced_other_format kegg_more png_cached
              {[ variant_path "hsa04520_image" "png" := png_head ]}
              gif_url "hsa04520_image" false (Response true gif_head)
              png_head [[0%N]])
    as (Hfirst & _ & _ & Hnext);
    [reflexivity | by vm_compute | by vm_compute | exact Hsniff
    | reflexivity |].
  split_and!; [exact Hsniff | exact Hfirst | exact (Hnext gif_url false)].
Defined.

(** ** [keggapi_get], the image branch *)

(** X18.  The image branch of [keggapi_get] hands what [download_pic]
    returns to [plt.imshow], and it never forces the download.  After a
    download that is [response.raw], which is no image data: the call
    fails with [TypeError], the image being stored by then.  When a cached
    variant is read it is the decoded raster, which is displayed and
    returned.  What [download_pic] raises goes through. *)
Theorem keggapi_get_image E w dbentry wd verbose force w1 :
  let url := "http://rest.kegg.jp/get/" +:+ dbentry +:+ "/image" in
  let filename := dbentry +:+ "_image" in
  let out := keggapi_get dbentry (Some "image") wd verbose force E w in
  (∀ r,
     download_pic url filename false true E w = (Ok (RawStream r), w1) →
     out = (Raise TypeError, w1)) ∧
  (∀ a,
     download_pic url filename false true E w = (Ok (Raster a), w1) →
     out = (Ok (GotImage (Raster a)), World (cache w1) (log w1 ++ [Imshow]))) ∧
  (∀ e,
     download_pic url filename false true E w = (Raise e, w1) →
     out = (Raise e, w1)).
Proof.
  cbn zeta.
  assert (keggapi_get dbentry (Some "image") wd verbose force E w
          = (let* img :=
               download_pic
                 ("http://rest.kegg.jp/get/" +:+ dbentry +:+ "/image")
                 (dbentry +:+ "_image") false true in
             imshow img;; ret (GotImage img)) E w) as -> by reflexivity.
  rewrite bind_run. split_and!.
  - by intros r ->.
  - by intros a ->.
  - by intros e ->.
Qed.

Lemma keggapi_get_image_witness :
  let first :=
    download_pic image_url "hsa05130_image" false true
      (kegg decode_png) empty_cache in
  let second :=
    download_pic image_url "hsa05130_image" false true
      (kegg decode_png) first.2 in
  first = (Ok (RawStream (Response true png_head)), first.2) ∧
  keggapi_get "hsa05130" (Some "image") false true true
    (kegg decode_png) empty_cache
  = (Raise TypeError, first.2) ∧
  second = (Ok (Raster [[0%N]]), second.2) ∧
  keggapi_get "hsa05130" (Some "image") false true true
    (kegg decode_png) first.2
  = (Ok (GotImage (Raster [[0%N]])),
     World (cache second.2) (log second.2 ++ [Imshow])).
Proof.
  intros first second.
  assert (first = (Ok (RawStream (Response true png_head)), first.2))
    as Hfirst by (by vm_compute).
  assert (second = (Ok (Raster [[0%N]]), second.2)) as Hsecond
    by (by vm_compute).
  subst first second.
  split_and!; [exact Hfirst | | exact Hsecond |].
  - exact (proj1 (keggapi_get_image (kegg decode_png) empty_cache
                    "hsa05130" false true true _) _ Hfirst).
  - exact (proj1 (proj2 (keggapi_get_image (kegg decode_png) _
                           "hsa05130" false true true _)) _ Hsecond).
Defined.
